(** * Paket-Konfigurator (streamlit_app.py): catalog loading, package pricing
      and export, embedded in Rocq.

    Python [float] is IEEE 754 binary64 and is embedded as Rocq's primitive
    [float] (the same format, round to nearest even); Python [int] is [Z];
    Python [str] is [string] holding the UTF-8 bytes of the text.  A pandas
    [DataFrame] is the list of its columns in order, each a label and its
    cells.  Streamlit calls are recorded as a trace of UI events. *)

From Stdlib Require Import ZArith List String Ascii Bool Floats Lia Uint63.
From stdpp Require Import gmap strings.
Import ListNotations.

Set Warnings "-inexact-float".
Local Open Scope Z_scope.

(** ** Python numbers *)

(** [int] to [float], as Python does it for [qty * price] and
    [mwst_pct / 100.0].  Exact for [|n| < 2^53]; the widgets only hand out
    integers in that range (and [of_uint63] covers [0 <= n < 2^63]). *)
Definition float_of_int (n : Z) : float :=
  if n <? 0 then (- of_uint63 (Uint63.of_Z (- n)))%float
  else of_uint63 (Uint63.of_Z n).

(** Python's [x >= y] and [x > y] on floats: [False] as soon as one side is NaN. *)
Definition fge (x y : float) : bool := (y <=? x)%float.
Definition fgt (x y : float) : bool := (y <? x)%float.

(** ** Python strings *)

(** [sub in s] *)
Fixpoint str_in (sub s : string) : bool :=
  String.prefix sub s ||
  match s with
  | EmptyString => false
  | String _ s' => str_in sub s'
  end.

(** ** Data frames *)

(** What a spreadsheet cell is once pandas has read it: a number (a blank
    cell is NaN) or text. *)
Inductive cell :=
| Num (x : float)
| Text (s : string).

Definition DataFrame := list (string * list cell).

Definition df_columns (df : DataFrame) : list string := map fst df.

(** [df.shape[1]] *)
Definition n_columns (df : DataFrame) : nat := List.length df.

(** [df.shape[0]]: every column has the frame's number of rows. *)
Definition n_rows (df : DataFrame) : nat :=
  match df with
  | [] => O
  | (_, cells) :: _ => List.length cells
  end.

(** [df.empty] *)
Definition df_empty (df : DataFrame) : bool :=
  (n_columns df =? 0)%nat || (n_rows df =? 0)%nat.

(** [df[c]], for a label that names one column. *)
Fixpoint get_column (df : DataFrame) (c : string) : option (list cell) :=
  match df with
  | [] => None
  | (l, cells) :: rest => if String.eqb l c then Some cells else get_column rest c
  end.

(** [df[c] = cells] *)
Fixpoint set_column (df : DataFrame) (c : string) (cells : list cell) : DataFrame :=
  match df with
  | [] => []
  | (l, old) :: rest =>
      if String.eqb l c then (l, cells) :: rest else (l, old) :: set_column rest c cells
  end.

(** Python's [==] between two cell values. *)
Definition cell_eqb (a b : cell) : bool :=
  match a, b with
  | Num x, Num y => (x =? y)%float
  | Text s, Text t => String.eqb s t
  | _, _ => false
  end.

(** ** Outcomes

    How a run of the script (or of a part of it) ends: it runs to its last line, [st.stop()]
    ends this run of the script (the server keeps serving), or an exception
    escapes. *)
Inductive outcome (A : Type) :=
| Done (a : A)
| Stopped
| Raised (exn : string).
Arguments Done {A} a.
Arguments Stopped {A}.
Arguments Raised {A} exn.

(** ** The catalog loader, [load_data] *)

Section Loader.

(** Python's [str.strip] and [str.lower], and the number parser behind
    [pd.to_numeric]. *)
Variable strip : string -> string.
Variable lower : string -> string.
Variable parse_number : string -> option float.

(** [df.rename(columns=lambda c: str(c).strip())] *)
Definition rename_strip (df : DataFrame) : DataFrame :=
  map (fun col => (strip (fst col), snd col)) df.

(** The test of line 29 on one header. *)
Definition is_price_header (c : string) : bool :=
  let l := lower c in
  str_in "pro" l || str_in "stück" l || str_in "set" l || str_in "€" l.

(** The [for c in df.columns] loop with its [break]. *)
Fixpoint scan_price_col (cols : list string) : option string :=
  match cols with
  | [] => None
  | c :: rest => if is_price_header c then Some c else scan_price_col rest
  end.

(** [price_col] after lines 26-33. *)
Definition detect_price_col (cols : list string) : option string :=
  match scan_price_col cols with
  | Some c => Some c
  | None => if (2 <=? List.length cols)%nat then List.last (map Some cols) None else None
  end.

(** [name_col], line 35. *)
Definition detect_name_col (cols : list string) : option string :=
  match cols with
  | [] => None
  | c :: _ => Some c
  end.

(** [pd.to_numeric(..., errors='coerce')] on one cell: what does not parse
    becomes NaN. *)
Definition to_numeric_coerce (c : cell) : float :=
  match c with
  | Num x => x
  | Text s => match parse_number s with
              | Some x => x
              | None => nan
              end
  end.

(** [.fillna(0)] on one value. *)
Definition fillna0 (x : float) : float := if is_nan x then 0%float else x.

Definition clean_price (c : cell) : float := fillna0 (to_numeric_coerce c).

(** Line 38, on the cells of the price column. *)
Definition clean_price_column (cells : list cell) : list cell :=
  map (fun c => Num (clean_price c)) cells.

(** [load_data] after a successful [read_excel]: lines 24-39.  When the
    label of the price column names several columns, [df[price_col]] is a
    frame and [pd.to_numeric] raises a [TypeError]. *)
Definition load_frame (df0 : DataFrame)
    : outcome (DataFrame * option string * option string) :=
  let df := rename_strip df0 in
  let price_col := detect_price_col (df_columns df) in
  let name_col := detect_name_col (df_columns df) in
  match price_col with
  | Some pc =>
      if (1 <? count_occ string_dec (df_columns df) pc)%nat then Raised "TypeError"
      else match get_column df pc with
           | Some cells => Done (set_column df pc (clean_price_column cells), name_col, price_col)
           | None => Raised "KeyError"
           end
  | None => Done (df, name_col, price_col)
  end.

End Loader.

(** ** The package calculator *)

Record package_line := mk_line {
  Artikel : cell;
  Menge : Z;
  Einzelpreis : float;
  ZeileNetto : float
}.

(** [float(...)] of a cell of the cleaned price column. *)
Definition cell_float (c : cell) : option float :=
  match c with
  | Num x => Some x
  | Text _ => None
  end.

(** Index of the first row of [names] equal to [art]: [df[df[name_col] == art].iloc[0]]. *)
Fixpoint first_row (names : list cell) (art : cell) : option nat :=
  match names with
  | [] => None
  | n :: rest => if cell_eqb n art then Some O else option_map S (first_row rest art)
  end.

(** Line 89: the row of [art]; [None] is the [IndexError] of [iloc[0]] on an
    empty selection. *)
Definition row_index (df : DataFrame) (name_col : string) (art : cell) : option nat :=
  match get_column df name_col with
  | None => None
  | Some names => first_row names art
  end.

(** Line 92: the unit price in row [i]; [None] is a Python exception. *)
Definition row_price (df : DataFrame) (price_col : option string) (i : nat) : option float :=
  match price_col with
  | None => Some 0%float
  | Some pc =>
      match get_column df pc with
      | None => None
      | Some prices =>
          match nth_error prices i with
          | Some c => cell_float c
          | None => None
          end
      end
  end.

(** Lines 89 and 92 together: the unit price of [art]. *)
Definition unit_price (df : DataFrame) (name_col : string) (price_col : option string)
    (art : cell) : option float :=
  match row_index df name_col art with
  | None => None
  | Some i => row_price df price_col i
  end.

(** One turn of the loop of lines 88-95, given the looked-up price. *)
Definition add_line (art : cell) (qty : Z) (price : float)
    (acc : float * list package_line) : float * list package_line :=
  let line := (float_of_int qty * price)%float in
  ((fst acc + line)%float, snd acc ++ [mk_line art qty price line]).

(** The loop of lines 87-95 over the selected articles with the quantities
    entered for them: [(total_net, package_lines)].  The quantity widgets of
    line 91 are taken to have distinct labels (Streamlit refuses a second
    widget with the label of another), and [name_col] to name one column. *)
Fixpoint configure_from (df : DataFrame) (name_col : string) (price_col : option string)
    (selected : list (cell * Z)) (acc : float * list package_line)
    : option (float * list package_line) :=
  match selected with
  | [] => Some acc
  | (art, qty) :: rest =>
      match unit_price df name_col price_col art with
      | None => None
      | Some price => configure_from df name_col price_col rest (add_line art qty price acc)
      end
  end.

Definition configure (df : DataFrame) (name_col : string) (price_col : option string)
    (selected : list (cell * Z)) : option (float * list package_line) :=
  configure_from df name_col price_col selected (0%float, []).

(** Line 101: [package_df[package_df["Menge"] > 0]]. *)
Definition filter_positive (lines : list package_line) : list package_line :=
  List.filter (fun l => 0 <? Menge l) lines.

(** [Series.sum()] of a float column: the additions in index order, from 0.
    (numpy adds in this order up to seven elements and regroups the additions
    of longer columns, which can change the last bits of the result.) *)
Definition series_sum (xs : list float) : float :=
  fold_left (fun acc x => (acc + x)%float) xs 0%float.

Record summary := mk_summary {
  net_sum : float;
  discount_amount : float;
  net_after_discount : float;
  vat_amount : float;
  gross_total : float
}.

(** Lines 108-112. *)
Definition summarize (package_df : list package_line) (discount_pct : float) (mwst_pct : Z)
    : summary :=
  let apply_vat := negb (mwst_pct =? 0) in
  let net_sum := series_sum (map ZeileNetto package_df) in
  let discount_amount := (net_sum * (discount_pct / 100))%float in
  let net_after_discount := (net_sum - discount_amount)%float in
  let vat_amount :=
    if apply_vat then (net_after_discount * (float_of_int mwst_pct / 100))%float
    else 0%float in
  let gross_total := (net_after_discount + vat_amount)%float in
  mk_summary net_sum discount_amount net_after_discount vat_amount gross_total.

(** ** The script *)

(** What the page shows, in the order the script emits it. *)
Inductive ui_event :=
| St_title
| St_intro
| St_error (text : string)
| St_warning (text : string)
| St_info
| Sidebar_settings
| St_search_box
| St_dataframe (rows : list (cell * cell))
| St_multiselect (options : list cell)
| St_number_input (art : cell)
| St_table (rows : list (cell * Z * string * string))
| St_figures (lines : list string)
| Download_xlsx (rows : list (package_line * (float * Z * float * float * float * float)))
                (file_name : string)
| St_code (text : string)
| Download_txt (text : string) (file_name : string)
| Sidebar_uploader
| Sidebar_success
| Sidebar_saved
| Sidebar_error
| St_usage.

(** The files on disk, by absolute path. *)
Definition files := gmap string string.

(** A script step: it may write files, shows events, and ends in an outcome. *)
Definition script (A : Type) : Type := files -> files * list ui_event * outcome A.

Definition ret {A} (a : A) : script A := fun fs => (fs, [], Done a).

Definition bind {A B} (m : script A) (k : A -> script B) : script B :=
  fun fs =>
    match m fs with
    | (fs1, ev1, Done a) =>
        match k a fs1 with
        | (fs2, ev2, r) => (fs2, ev1 ++ ev2, r)
        end
    | (fs1, ev1, Stopped) => (fs1, ev1, Stopped)
    | (fs1, ev1, Raised e) => (fs1, ev1, Raised e)
    end.

Notation "x <- m ;; k" := (bind m (fun x => k))
  (at level 100, m at next level, right associativity).
Notation "m ;;; k" := (bind m (fun _ => k))
  (at level 100, right associativity).

Definition show (e : ui_event) : script unit := fun fs => (fs, [e], Done tt).
Definition st_stop {A} : script A := fun fs => (fs, [], Stopped).
Definition raise {A} (exn : string) : script A := fun fs => (fs, [], Raised exn).
Definition read_file (path : string) : script (option string) :=
  fun fs => (fs, [], Done (fs !! path)).
Definition write_file (path data : string) : script unit :=
  fun fs => (<[path := data]> fs, [], Done tt).

(** A relative path is resolved against the working directory. *)
Definition abspath (cwd path : string) : string :=
  if String.prefix "/" path then path else cwd ++ "/" ++ path.

(** What the widgets return in one run. *)
Record inputs := mk_inputs {
  mwst_pct : Z;
  discount_pct : float;
  search : string;
  selected : list cell;
  qty_of : cell -> Z;
  uploaded : option string
}.

(** The text of the warning of line 51. *)
Definition no_data_warning : string :=
  "Keine Daten gefunden. Bitte stelle sicher, dass /mnt/data/Miete.xlsx existiert und die Tabelle 'Tabelle1' enthält.".

(** What [load_data] returns: a bare empty frame after a failed read, the
    triple otherwise. *)
Inductive load_result :=
| Bare_frame (df : DataFrame)
| Triple (df : DataFrame) (name_col price_col : option string).

Section App.

Variable strip : string -> string.
Variable lower : string -> string.
Variable parse_number : string -> option float.
(** [pd.read_excel] on the bytes of a file; [None] when it raises. *)
Variable read_excel : string -> option DataFrame.
(** [Series.str.contains(search, case=False, na=False)] on one cell. *)
Variable str_contains : string -> cell -> bool.
(** ["{:.2f}".format], [str] of an [int] and of a cell. *)
Variable fmt2 : float -> string.
Variable str_of_int : Z -> string.
Variable str_of_cell : cell -> string.
(** [datetime.now()] as ['%Y-%m-%d'] and as ['%Y%m%d_%H%M%S']. *)
Variable today : string.
Variable stamp : string.
Variable cwd : string.

(** [load_data(path)], lines 17-39, as the first run of a process executes
    it ([st.cache_data] keeps its result for the later runs of the same
    process).  The error message is shown without the text of the exception. *)
Definition load_data (path : string) : script load_result :=
  content <- read_file (abspath cwd path) ;;
  match match content with Some bytes => read_excel bytes | None => None end with
  | None =>
      show (St_error "Fehler beim Laden der Excel-Datei") ;;;
      ret (Bare_frame [])
  | Some df0 =>
      match load_frame strip lower parse_number df0 with
      | Done (df, name_col, price_col) => ret (Triple df name_col price_col)
      | Stopped => st_stop
      | Raised exn => raise exn
      end
  end.

(** Lines 65-72: the table of articles, narrowed by the search text. *)
Definition display_rows (names prices : list cell) (search : string) : list (cell * cell) :=
  List.filter (fun row => if String.eqb search "" then true else str_contains search (fst row))
    (combine names prices).

(** Lines 88-95 as the script runs them: the row is looked up, the quantity
    widget is shown, the price is read and the line is added. *)
Fixpoint package_loop (df : DataFrame) (name_col : string) (price_col : option string)
    (qty_of : cell -> Z) (sel : list cell) (acc : float * list package_line)
    : script (float * list package_line) :=
  match sel with
  | [] => ret acc
  | art :: rest =>
      match row_index df name_col art with
      | None => raise "IndexError"
      | Some i =>
          show (St_number_input art) ;;;
          match row_price df price_col i with
          | None => raise "ValueError"
          | Some price =>
              package_loop df name_col price_col qty_of rest
                (add_line art (qty_of art) price acc)
          end
      end
  end.

Definition table_row (l : package_line) : cell * Z * string * string :=
  (Artikel l, Menge l, (fmt2 (Einzelpreis l) ++ " €")%string, (fmt2 (ZeileNetto l) ++ " €")%string).

(** Lines 114-119. *)
Definition figure_lines (r : summary) (discount_pct : float) (mwst_pct : Z) : list string :=
  [("**Zwischensumme (Netto):** " ++ fmt2 (net_sum r) ++ " €")%string]
  ++ (if fgt discount_pct 0%float
      then [("**Rabatt (" ++ fmt2 discount_pct ++ "%):** −" ++ fmt2 (discount_amount r) ++ " €")%string]
      else [])
  ++ (if negb (mwst_pct =? 0)%Z
      then [("**MwSt (" ++ str_of_int mwst_pct ++ "%):** " ++ fmt2 (vat_amount r) ++ " €")%string]
      else [])
  ++ [("**Gesamtbetrag (Brutto):** " ++ fmt2 (gross_total r) ++ " €")%string].

(** Lines 130-136: every row of [package_df] with the six summary columns. *)
Definition export_df (package_df : list package_line) (r : summary)
    (discount_pct : float) (mwst_pct : Z)
    : list (package_line * (float * Z * float * float * float * float)) :=
  map (fun l => (l, (discount_pct, mwst_pct, net_sum r, net_after_discount r,
                     vat_amount r, gross_total r))) package_df.

(** Line 148: one position of the offer. *)
Definition offer_position (l : package_line) : string :=
  ("- " ++ str_of_int (Menge l) ++ " × " ++ str_of_cell (Artikel l) ++ " @ "
   ++ fmt2 (Einzelpreis l) ++ " € = " ++ fmt2 (ZeileNetto l) ++ " €" ++ "
")%string.

Definition offer_positions (package_df : list package_line) : list string :=
  map offer_position package_df.

(** Lines 142-154. *)
Definition offer_text (package_df : list package_line) (r : summary)
    (discount_pct : float) (mwst_pct : Z) : string :=
  ("Angebot — Paket zusammengestellt mit dem Paket-Konfigurator
Datum: " ++ today ++ "

Positionen:
" ++ String.concat "" (offer_positions package_df)
   ++ "
Zwischensumme: " ++ fmt2 (net_sum r) ++ " €
" ++ (if fgt discount_pct 0%float
    then "Rabatt: " ++ fmt2 (discount_amount r) ++ " € (" ++ fmt2 discount_pct ++ "%)
"     else "")
   ++ (if negb (mwst_pct =? 0)%Z
       then "MwSt (" ++ str_of_int mwst_pct ++ "%): " ++ fmt2 (vat_amount r) ++ " €
"        else "")
   ++ "Gesamt (Brutto): " ++ fmt2 (gross_total r) ++ " €
")%string.

(** Lines 97-157: the summary, the export and the offer of a package. *)
Definition package_summary (package_lines : list package_line)
    (discount_pct : float) (mwst_pct : Z) : script unit :=
  let package_df := filter_positive package_lines in
  match package_df with
  | [] => show (St_warning "Keine Positionen mit Menge > 0 im Paket.")
  | _ :: _ =>
      show (St_table (map table_row package_df)) ;;;
      let r := summarize package_df discount_pct mwst_pct in
      show (St_figures (figure_lines r discount_pct mwst_pct)) ;;;
      let filename := ("Paket_" ++ stamp ++ ".xlsx")%string in
      show (Download_xlsx (export_df package_df r discount_pct mwst_pct) filename) ;;;
      let text := offer_text package_df r discount_pct mwst_pct in
      show (St_code text) ;;;
      show (Download_txt text ("Paket_" ++ stamp ++ ".txt")%string)
  end.

(** Lines 159-172: the admin upload. *)
Definition admin_upload (uploaded : option string) : script unit :=
  show Sidebar_uploader ;;;
  match uploaded with
  | None => ret tt
  | Some bytes =>
      match read_excel bytes with
      | Some new_df =>
          show Sidebar_success ;;;
          write_file "/mnt/data/Miete_uploaded.xlsx" bytes ;;;
          show Sidebar_saved
      | None => show Sidebar_error
      end
  end.

(** One run of the whole script, for a name label that names one column
    (with a label that names several, [df[name_col]] is a frame and line 76
    fails on it). *)
Definition main (inp : inputs) : script unit :=
  show St_title ;;;
  show St_intro ;;;
  data_load <- load_data "Miete.xlsx" ;;
  let '(df, name_col, price_col) :=
    match data_load with
    | Triple df name_col price_col => (df, name_col, price_col)
    | Bare_frame _ => ([], None, None)
    end in
  (if df_empty df
   then show (St_warning no_data_warning) ;;; st_stop
   else ret tt) ;;;
  show Sidebar_settings ;;;
  show St_search_box ;;;
  names <- match name_col with
           | Some nc => match get_column df nc with
                        | Some names => ret names
                        | None => raise "KeyError"
                        end
           | None => raise "KeyError"
           end ;;
  prices <- match price_col with
            | Some pc => match get_column df pc with
                         | Some prices => ret prices
                         | None => raise "KeyError"
                         end
            | None => raise "KeyError"
            end ;;
  show (St_dataframe (display_rows names prices (search inp))) ;;;
  show (St_multiselect names) ;;;
  match selected inp with
  | [] => show St_info
  | _ :: _ =>
      match name_col with
      | None => raise "KeyError"
      | Some nc =>
          built <- package_loop df nc price_col (qty_of inp) (selected inp) (0%float, []) ;;
          package_summary (snd built) (discount_pct inp) (mwst_pct inp)
      end
  end ;;;
  admin_upload (uploaded inp) ;;;
  show St_usage.

(** The catalog file as [read_excel] sees it. *)
Definition catalog_source (fs : files) : option DataFrame :=
  match fs !! abspath cwd "Miete.xlsx" with
  | Some bytes => read_excel bytes
  | None => None
  end.

(** What the upload leaves on disk. *)
Definition after_upload (bytes : string) (fs : files) : files :=
  fst (fst (admin_upload (Some bytes) fs)).

End App.

(** ** Stand-ins for Python's built-ins, to run the model on ASCII text *)

Definition ascii_lower (c : ascii) : ascii :=
  let n := nat_of_ascii c in
  if ((65 <=? n) && (n <=? 90))%nat then ascii_of_nat (n + 32) else c.

Fixpoint py_lower (s : string) : string :=
  match s with
  | EmptyString => EmptyString
  | String c s' => String (ascii_lower c) (py_lower s')
  end.

Definition is_space (c : ascii) : bool :=
  let n := nat_of_ascii c in ((n =? 32) || ((9 <=? n) && (n <=? 13)))%nat.

Fixpoint lstrip (s : string) : string :=
  match s with
  | String c s' => if is_space c then lstrip s' else s
  | EmptyString => EmptyString
  end.

Definition py_strip (s : string) : string :=
  String.rev (lstrip (String.rev (lstrip s))).

(** A string of decimal digits as a number; anything else does not parse. *)
Fixpoint digits_value (s : string) (acc : Z) : option Z :=
  match s with
  | EmptyString => Some acc
  | String c s' =>
      let n := nat_of_ascii c in
      if ((48 <=? n) && (n <=? 57))%nat
      then digits_value s' (10 * acc + Z.of_nat (n - 48))
      else None
  end.

Definition parse_digits (s : string) : option float :=
  match s with
  | EmptyString => None
  | _ => option_map float_of_int (digits_value s 0)
  end.

(** ** Notions used to state the properties *)

(** The [BruttoSumme] column of a row of the export. *)
Definition gross_total_of
    (row : package_line * (float * Z * float * float * float * float)) : float :=
  snd (snd row).


(** A line as the loop writes it: its amount is quantity times unit price. *)
Definition line_ok (l : package_line) : Prop :=
  ZeileNetto l = (float_of_int (Menge l) * Einzelpreis l)%float.

(** One addition of the running total and of [series_sum]. *)
Definition fadd (acc x : float) : float := (acc + x)%float.

(** What a run shows and how it ends, without the files it leaves. *)
Definition view {A} (r : files * list ui_event * outcome A) : list ui_event * outcome A :=
  (snd (fst r), snd r).

(** A script step whose view does not depend on the files it starts from. *)
Definition oblivious {A} (m : script A) : Prop :=
  forall fs1 fs2, view (m fs1) = view (m fs2).

(** [s.endswith(suf)] *)
Fixpoint ends_with (suf s : string) : bool :=
  String.eqb s suf ||
  match s with
  | EmptyString => false
  | String _ s' => ends_with suf s'
  end.

(** ** Data of the scenarios *)

(** Scenarios A and C: the two articles as the loader hands them over. *)
Definition scenario_df : DataFrame :=
  [ ("Artikel"%string, [Text "Tisch"; Text "Stuhl"]);
    ("Preis pro Stück"%string, [Num 10%float; Num 5%float]) ].

(** The sheet behind it as [read_excel] returns it: a padded header, and a
    price typed as text. *)
Definition scenario_sheet : DataFrame :=
  [ (" Artikel "%string, [Text "Tisch"; Text "Stuhl"]);
    ("Preis pro Stück"%string, [Num 10%float; Text "5"]) ].

(** The widgets of scenario A. *)
Definition scenario_A_inputs : inputs :=
  mk_inputs 19 0%float "" [Text "Tisch"; Text "Stuhl"]
    (fun art => if cell_eqb art (Text "Tisch") then 2 else 3) None.

(** Scenario A: Tisch twice, Stuhl three times. *)
Definition scenario_A_lines : list package_line :=
  [ mk_line (Text "Tisch") 2 10%float 20%float; mk_line (Text "Stuhl") 3 5%float 15%float ].

(** Scenario C: Stuhl is selected with quantity 0. *)
Definition scenario_C_selection : list (cell * Z) := [(Text "Tisch", 2); (Text "Stuhl", 0)].

Definition scenario_C_lines : list package_line :=
  [ mk_line (Text "Tisch") 2 10%float 20%float; mk_line (Text "Stuhl") 0 5%float 0%float ].

(** A sheet with a negative number in the price column. *)
Definition negative_sheet : DataFrame :=
  [ ("Artikel"%string, [Text "Tisch"]); ("Preis pro Stück"%string, [Num (-5)%float]) ].

(** A catalog with a price close to the largest float. *)
Definition overflow_df : DataFrame :=
  [ ("Artikel"%string, [Text "Halle"]); ("Preis pro Stück"%string, [Num 9.99e307%float]) ].

(** A catalog with an infinite price, as a price cell with the text "inf"
    gives it. *)
Definition infinite_price_df : DataFrame :=
  [ ("Artikel"%string, [Text "Tisch"; Text "Halle"]);
    ("Preis pro Stück"%string, [Num 10%float; Num infinity]) ].

(** A toy [read_excel]: the bytes of the file are the name of its one article. *)
Definition read_one_article (bytes : string) : option DataFrame :=
  match bytes with
  | EmptyString => None
  | _ => Some [ ("Artikel"%string, [Text bytes]); ("Preis pro Stück"%string, [Num 1%float]) ]
  end.

(** ** Binary64: notions used to state the arithmetic facts

    The primitive operations are specified by [SpecFloat]'s functions at
    precision 53 and exponent bound 1024; the smallest exponent is -1074 and
    the largest 971. *)

(** The exponent the format gives to a number whose leading binary digit
    has weight [2^(e-1)]. *)
Definition fexp64 (e : Z) : Z := Z.max (e - 53) (-1074).

(** The number of binary digits of a positive mantissa. *)
Definition dg (m : positive) : Z := Zpos (digits2_pos m).

(** A shifted mantissa that has lost no digit so far. *)
Definition exact_rec (mrs : shr_record) : Prop := shr_r mrs = false /\ shr_s mrs = false.

(** A mantissa with its exponent is canonical when the exponent is the one
    the format gives to a number of that magnitude. *)
Definition canon (m e : Z) : Prop := fexp64 (Zdigits2 m + e) = e.

(** The float made of a rounded mantissa and its exponent. *)
Definition round_result (sx : bool) (m2 e2 : Z) : spec_float :=
  match m2 with
  | Z0 => S754_zero sx
  | Zpos p => if e2 <=? 971 then S754_finite sx p e2 else S754_infinity sx
  | Zneg _ => S754_nan
  end.

(** The value of [m * 2^e] in units of [2^-1074], the smallest positive
    binary64 number. *)
Definition V (m e : Z) : Z := m * 2 ^ (e + 1074).

(** Floats that are not NaN and not below zero, in canonical form. *)
Definition nonneg (x : spec_float) : Prop :=
  match x with
  | S754_zero _ => True
  | S754_infinity s => s = false
  | S754_finite s m e => s = false /\ canon (Zpos m) e /\ e <= 971
  | S754_nan => False
  end.

(** Their value in units of [2^-1074]; [None] is +infinity. *)
Definition val (x : spec_float) : option Z :=
  match x with
  | S754_zero _ => Some 0
  | S754_finite _ m e => Some (V (Zpos m) e)
  | _ => None
  end.

(** The order of such values. *)
Definition le_ext (a b : option Z) : Prop :=
  match a, b with
  | _, None => True
  | None, Some _ => False
  | Some x, Some y => x <= y
  end.

(** 1.0 *)
Definition SFone : spec_float := S754_finite false 4503599627370496 (-52).

(** Zero or finite. *)
Definition finite_val (x : spec_float) : Prop := val x <> None.

(** ** Notions used to state the further properties *)

(** A frame as pandas keeps it: every column has [n] cells. *)
Definition rectangular (df : DataFrame) (n : nat) : Prop :=
  Forall (fun col => List.length (snd col) = n) df.

(** The label [c] names exactly one column of the frame, so that [df[c]] is
    a column (with a label that names several columns it is a frame, which
    has no [tolist] and no [str]). *)
Definition names_one_column (df : DataFrame) (c : string) : Prop :=
  count_occ string_dec (df_columns df) c = 1%nat.

(** A catalog that lists Tisch twice, with two prices. *)
Definition duplicate_df : DataFrame :=
  [ ("Artikel"%string, [Text "Tisch"; Text "Stuhl"; Text "Tisch"]);
    ("Preis pro Stück"%string, [Num 10%float; Num 5%float; Num 99%float]) ].

(** A sheet whose first header, Produkt, contains the keyword pro. *)
Definition produkt_sheet : DataFrame :=
  [ ("Produkt"%string, [Text "Tisch"; Text "Stuhl"]);
    ("Miete"%string, [Num 10%float; Num 5%float]) ].

(** A toy [read_excel] for a sheet of one column: the bytes of the file are
    its one cell. *)
Definition read_one_column (bytes : string) : option DataFrame :=
  Some [ ("Artikel"%string, [Text bytes]) ].

(** A toy [read_excel] for a sheet that has its header row and no other row. *)
Definition read_headers_only (bytes : string) : option DataFrame :=
  Some [ ("Artikel"%string, []); ("Preis pro Stück"%string, []) ].

(** A script step that leaves every file untouched except those in [P]. *)
Definition writes_only (P : string -> Prop) {A} (m : script A) : Prop :=
  forall fs p, ~ P p -> (fst (fst (m fs)) : files) !! p = (fs : files) !! p.

(** The file the admin upload writes, line 168. *)
Definition upload_path : string := "/mnt/data/Miete_uploaded.xlsx".

(** [s.replace(old, new)] for a non-empty [old]: the occurrences of [old]
    are replaced from left to right, without overlap.  [skip] counts the
    characters of a replaced occurrence that are still to be passed over. *)
Fixpoint replace_from (old new : string) (skip : nat) (s : string) : string :=
  match s with
  | EmptyString => EmptyString
  | String c s' =>
      match skip with
      | S k => replace_from old new k s'
      | O =>
          if String.prefix old s
          then (new ++ replace_from old new (String.length old - 1) s')%string
          else String c (replace_from old new O s')
      end
  end.

Definition str_replace (old new s : string) : string := replace_from old new O s.

(** Line 157: the name of the text download, from the name of the export. *)
Definition txt_file_name (filename : string) : string :=
  str_replace ".xlsx" ".txt" filename.

(** A stand-in for [str] of a cell: the text of a text cell. *)
Definition cell_text (c : cell) : string :=
  match c with
  | Text s => s
  | Num _ => "nan"
  end.

(** * Properties *)

(** ** The summary figures *)

(** C1: the summary figures are netSubtotal x discountPct/100 for the
    discount, netSubtotal - discountAmount for the discounted net, 0 for the
    VAT when vatPct = 0 and netAfterDiscount x vatPct/100 otherwise, and
    netAfterDiscount + vatAmount for the gross total. *)
Theorem summary_formulas (package_df : list package_line) (d : float) (v : Z) :
  let r := summarize package_df d v in
  let s := net_sum r in
  discount_amount r = (s * (d / 100))%float /\
  net_after_discount r = (s - discount_amount r)%float /\
  vat_amount r = (if v =? 0 then 0%float
                  else (net_after_discount r * (float_of_int v / 100))%float) /\
  gross_total r = (net_after_discount r + vat_amount r)%float.
Proof.
  cbv zeta. unfold summarize.
  cbn [net_sum discount_amount net_after_discount vat_amount gross_total].
  repeat split. destruct (v =? 0); reflexivity.
Qed.

(** C3: Tisch at 10.00 taken twice and Stuhl at 5.00 taken three times, no
    discount, 19 % VAT: net subtotal 35.00, VAT 6.65, gross total 41.65. *)
Theorem scenario_A :
  exists total_net package_lines,
    configure scenario_df "Artikel" (Some "Preis pro Stück"%string)
      [(Text "Tisch", 2); (Text "Stuhl", 3)] = Some (total_net, package_lines) /\
    let r := summarize (filter_positive package_lines) 0%float 19 in
    net_sum r = 35%float /\ vat_amount r = 6.65%float /\ gross_total r = 41.65%float.
Proof.
  eexists _, _. split; [vm_compute; reflexivity|].
  vm_compute. repeat split.
Qed.

(** ** What the loop of lines 87-95 builds *)

Lemma series_sum_fold (xs : list float) : series_sum xs = fold_left fadd xs 0%float.
Proof. reflexivity. Qed.

(** The loop appends one line per selected article, in order, and adds each
    amount to the running total. *)
Lemma configure_from_spec df nc pc sel : forall acc t ls,
  configure_from df nc pc sel acc = Some (t, ls) ->
  exists new,
    ls = snd acc ++ new /\
    t = fold_left fadd (map ZeileNetto new) (fst acc) /\
    Forall line_ok new /\
    map (fun l => (Artikel l, Menge l)) new = sel.
Proof.
  induction sel as [|[art qty] rest IH]; intros acc t ls H; cbn in H.
  - inversion H; subst. exists []. rewrite app_nil_r. repeat split; constructor.
  - destruct (unit_price df nc pc art) as [price|]; [|discriminate].
    apply IH in H. destruct H as (new & -> & -> & Hok & Hsel).
    exists (mk_line art qty price (float_of_int qty * price)%float :: new).
    cbn. rewrite <- app_assoc. repeat split.
    + constructor; [reflexivity|exact Hok].
    + now rewrite Hsel.
Qed.

Lemma configure_spec df nc pc sel t ls :
  configure df nc pc sel = Some (t, ls) ->
  t = fold_left fadd (map ZeileNetto ls) 0%float /\
  Forall line_ok ls /\
  map (fun l => (Artikel l, Menge l)) ls = sel.
Proof.
  intros H. apply configure_from_spec in H. destruct H as (new & -> & -> & H1 & H2).
  cbn. auto.
Qed.

(** The loop of the script shows one quantity widget per selected article
    and builds what [configure] builds. *)
Lemma package_loop_configure df nc pc qty_of sel : forall acc fs,
  match configure_from df nc pc (map (fun art => (art, qty_of art)) sel) acc with
  | Some r => package_loop df nc pc qty_of sel acc fs = (fs, map St_number_input sel, Done r)
  | None => exists ev exn, package_loop df nc pc qty_of sel acc fs = (fs, ev, Raised exn)
  end.
Proof.
  induction sel as [|art rest IH]; intros acc fs; cbn [map configure_from package_loop].
  - reflexivity.
  - unfold unit_price. destruct (row_index df nc art) as [i|]; [|now eexists _, _].
    unfold bind, show.
    destruct (row_price df pc i) as [price|]; [|now eexists _, _].
    specialize (IH (add_line art (qty_of art) price acc) fs).
    destruct (configure_from df nc pc (map (fun a => (a, qty_of a)) rest)
                (add_line art (qty_of art) price acc)) as [r|].
    + rewrite IH. reflexivity.
    + destruct IH as (ev & exn & ->). now eexists _, _.
Qed.

Lemma filter_positive_In l lines : In l (filter_positive lines) <-> In l lines /\ 0 < Menge l.
Proof.
  unfold filter_positive. rewrite List.filter_In. now rewrite Z.ltb_lt.
Qed.

(** The sum of the amounts of lines is the sum of quantity x unit price,
    added line by line from 0. *)
Lemma fold_amounts lines : forall acc,
  Forall line_ok lines ->
  fold_left (fun a x => (a + x)%float) (map ZeileNetto lines) acc
  = fold_left (fun a l => (a + float_of_int (Menge l) * Einzelpreis l)%float) lines acc.
Proof.
  induction lines as [|l lines IH]; intros acc H; [reflexivity|].
  apply List.Forall_cons_iff in H as [Hl H]. cbn [map fold_left].
  rewrite Hl. apply IH, H.
Qed.

(** ** Lines with quantity 0 *)

Section Artifacts.

Variable fmt2 : float -> string.
Variable str_of_int : Z -> string.
Variable str_of_cell : cell -> string.
Variable today : string.
Variable stamp : string.

(** What [package_summary] shows, and that it ends normally. *)
Lemma package_summary_run package_lines d v fs :
  package_summary fmt2 str_of_int str_of_cell today stamp package_lines d v fs =
  (fs,
   match filter_positive package_lines with
   | [] => [St_warning "Keine Positionen mit Menge > 0 im Paket."]
   | _ :: _ =>
       let package_df := filter_positive package_lines in
       let r := summarize package_df d v in
       let text := offer_text fmt2 str_of_int str_of_cell today package_df r d v in
       [ St_table (map (table_row fmt2) package_df);
         St_figures (figure_lines fmt2 str_of_int r d v);
         Download_xlsx (export_df package_df r d v) ("Paket_" ++ stamp ++ ".xlsx")%string;
         St_code text;
         Download_txt text ("Paket_" ++ stamp ++ ".txt")%string ]
   end,
   Done tt).
Proof.
  unfold package_summary. destruct (filter_positive package_lines); reflexivity.
Qed.


End Artifacts.

(** The offer lists one position per line of the filtered package. *)
Lemma offer_positions_length fmt2 str_of_int str_of_cell lines :
  List.length (offer_positions fmt2 str_of_int str_of_cell (filter_positive lines))
  = List.length (filter_positive lines).
Proof. unfold offer_positions. apply List.length_map. Qed.

(** ** The price and the name column *)

Lemma append_cons (c : ascii) (s b : string) :
  (String c s ++ b)%string = String c (s ++ b)%string.
Proof. reflexivity. Qed.

Lemma append_nil (b : string) : (EmptyString ++ b)%string = b.
Proof. reflexivity. Qed.

Lemma prefix_app (sub s : string) :
  String.prefix sub s = true <-> exists b, s = (sub ++ b)%string.
Proof.
  revert s. induction sub as [|c sub IH]; intros s.
  - split; [intros _; now exists s|intros _; destruct s; reflexivity].
  - destruct s as [|c' s]; cbn.
    + split; [discriminate|intros [b Hb]; discriminate].
    + destruct (ascii_dec c c') as [->|Hne].
      * rewrite IH. split; intros [b Hb]; exists b; rewrite append_cons in *; congruence.
      * split; [discriminate|intros [b Hb]; rewrite append_cons in Hb; congruence].
Qed.

(** [str_in sub s] is Python's [sub in s]: [sub] occurs somewhere in [s]. *)
Lemma str_in_spec (sub s : string) :
  str_in sub s = true <-> exists a b, s = (a ++ sub ++ b)%string.
Proof.
  induction s as [|c s IH]; cbn [str_in]; rewrite orb_true_iff, prefix_app.
  - split.
    + intros [[b Hb]|H]; [|discriminate]. now exists ""%string, b.
    + intros (a & b & H). left. destruct a; [now exists b|discriminate].
  - rewrite IH. split.
    + intros [[b Hb]|(a & b & ->)]; [now exists ""%string, b|].
      now exists (String c a), b.
    + intros (a & b & H). destruct a as [|c' a].
      * left. now exists b.
      * right. exists a, b. rewrite append_cons in H. congruence.
Qed.

Section LoaderProperties.

Variable strip : string -> string.
Variable lower : string -> string.
Variable parse_number : string -> option float.

(** The test of line 29: some keyword occurs in the lowercased header. *)
Lemma is_price_header_spec (c : string) :
  is_price_header lower c = true <->
  exists kw, In kw ["pro"; "stück"; "set"; "€"]%string /\
             exists a b, lower c = (a ++ kw ++ b)%string.
Proof.
  unfold is_price_header. cbv zeta. rewrite !orb_true_iff, !str_in_spec. split.
  - intros [[[H|H]|H]|H]; eexists; (split; [|exact H]); cbn; auto.
  - intros (kw & Hkw & H). cbn in Hkw.
    destruct Hkw as [<-|[<-|[<-|[<-|[]]]]]; auto.
Qed.

(** The scan stops at the first header that passes the test. *)
Lemma scan_price_col_spec (cols : list string) :
  match scan_price_col lower cols with
  | Some c => exists pre post, cols = pre ++ c :: post /\ is_price_header lower c = true /\
                               Forall (fun h => is_price_header lower h = false) pre
  | None => Forall (fun h => is_price_header lower h = false) cols
  end.
Proof.
  induction cols as [|c cols IH]; cbn; [constructor|].
  destruct (is_price_header lower c) eqn:E.
  - exists [], cols. repeat split; [exact E|constructor].
  - destruct (scan_price_col lower cols) as [c'|].
    + destruct IH as (pre & post & -> & H1 & H2).
      exists (c :: pre), post. repeat split; [exact H1|now constructor].
    + now constructor.
Qed.

Lemma last_map_Some (cols : list string) c0 :
  cols <> [] -> List.last (map Some cols) None = Some (List.last cols c0).
Proof.
  induction cols as [|c cols IH]; [congruence|]. intros _.
  destruct cols as [|c' cols]; [reflexivity|].
  change (List.last (map Some (c' :: cols)) None = Some (List.last (c' :: cols) c0)).
  apply IH. discriminate.
Qed.

(** ** What [load_data] does to the frame *)

Lemma get_column_In (df : DataFrame) (c : string) :
  In c (df_columns df) -> exists cells, get_column df c = Some cells.
Proof.
  induction df as [|[l cells] df IH]; cbn; [tauto|].
  intros [->|H]; [rewrite String.eqb_refl; eauto|].
  destruct (String.eqb l c); eauto.
Qed.

Lemma get_set_column_same (df : DataFrame) (c : string) (new : list cell) :
  In c (df_columns df) -> get_column (set_column df c new) c = Some new.
Proof.
  induction df as [|[l cells] df IH]; cbn; [tauto|]. intros H.
  destruct (String.eqb l c) eqn:E; cbn; rewrite E; [reflexivity|].
  apply IH. destruct H as [->|H]; [now rewrite String.eqb_refl in E|exact H].
Qed.

Lemma get_set_column_other (df : DataFrame) (c c' : string) (new : list cell) :
  c' <> c -> get_column (set_column df c new) c' = get_column df c'.
Proof.
  intros Hne. induction df as [|[l cells] df IH]; cbn; [reflexivity|].
  destruct (String.eqb l c) eqn:E; cbn.
  - apply String.eqb_eq in E. subst l.
    destruct (String.eqb c c') eqn:E'; [apply String.eqb_eq in E'; congruence|reflexivity].
  - now rewrite IH.
Qed.

Lemma columns_set_column (df : DataFrame) (c : string) (new : list cell) :
  df_columns (set_column df c new) = df_columns df.
Proof.
  unfold df_columns. induction df as [|[l cells] df IH]; cbn; [reflexivity|].
  destruct (String.eqb l c); cbn; [reflexivity|]. now rewrite IH.
Qed.

Lemma scan_price_col_In (cols : list string) (c : string) :
  scan_price_col lower cols = Some c -> In c cols.
Proof.
  induction cols as [|h cols IH]; cbn; [discriminate|].
  destruct (is_price_header lower h); [intros [= ->]; now left|]. intros H. right. now apply IH.
Qed.

Lemma detect_price_col_In (cols : list string) (c : string) :
  detect_price_col lower cols = Some c -> In c cols.
Proof.
  unfold detect_price_col. destruct (scan_price_col lower cols) as [c'|] eqn:E.
  - intros [= ->]. now apply scan_price_col_In.
  - destruct (2 <=? List.length cols)%nat eqn:L; [|discriminate].
    assert (Hne : cols <> []) by (destruct cols; [discriminate|discriminate]).
    rewrite (last_map_Some cols ""%string Hne). intros [= <-].
    destruct (exists_last Hne) as (pre & x & ->). rewrite last_last.
    apply in_or_app. right. now left.
Qed.

(** [load_data] keeps the labels and every column but the price column,
    whose cells it cleans; it fails only when the label of the price column
    names several columns. *)
Lemma load_frame_spec (df0 : DataFrame) :
  let df1 := rename_strip strip df0 in
  match load_frame strip lower parse_number df0 with
  | Done (df, name_col, price_col) =>
      name_col = detect_name_col (df_columns df1) /\
      price_col = detect_price_col lower (df_columns df1) /\
      df_columns df = df_columns df1 /\
      match price_col with
      | Some pc =>
          exists cells, get_column df1 pc = Some cells /\
                        get_column df pc = Some (clean_price_column parse_number cells) /\
                        forall c, c <> pc -> get_column df c = get_column df1 c
      | None => df = df1
      end
  | Stopped => False
  | Raised _ =>
      exists pc, detect_price_col lower (df_columns df1) = Some pc /\
                 (1 < count_occ string_dec (df_columns df1) pc)%nat
  end.
Proof.
  cbv zeta. unfold load_frame. set (df1 := rename_strip strip df0).
  destruct (detect_price_col lower (df_columns df1)) as [pc|] eqn:E; [|now repeat split].
  destruct (1 <? count_occ string_dec (df_columns df1) pc)%nat eqn:C.
  - exists pc. split; [reflexivity|now apply Nat.ltb_lt].
  - pose proof (detect_price_col_In _ _ E) as Hin.
    destruct (get_column_In df1 pc Hin) as [cells Hc]. rewrite Hc.
    split; [reflexivity|split; [reflexivity|split; [apply columns_set_column|]]].
    exists cells. split; [exact Hc|split; [now apply get_set_column_same|]].
    intros c Hne. now apply get_set_column_other.
Qed.

(** C6: the price column is the first column, from the left, whose
    lowercased header contains "pro", "stück", "set" or "€"; when no header
    does and there are at least two columns it is the last column; the name
    column is the first column. *)
Theorem price_and_name_column (cols : list string) :
  match detect_price_col lower cols with
  | Some c =>
      (exists pre post, cols = pre ++ c :: post /\ is_price_header lower c = true /\
                        Forall (fun h => is_price_header lower h = false) pre)
      \/ (Forall (fun h => is_price_header lower h = false) cols /\ (2 <= List.length cols)%nat /\
          exists pre, cols = pre ++ [c])
  | None => Forall (fun h => is_price_header lower h = false) cols /\ (List.length cols < 2)%nat
  end /\
  detect_name_col cols = List.hd_error cols /\
  (forall h, is_price_header lower h = true <->
             exists kw, In kw ["pro"; "stück"; "set"; "€"]%string /\
                        exists a b, lower h = (a ++ kw ++ b)%string) /\
  forall df0,
    match load_frame strip lower parse_number df0 with
    | Done (_, name_col, price_col) =>
        name_col = detect_name_col (map strip (df_columns df0)) /\
        price_col = detect_price_col lower (map strip (df_columns df0))
    | _ => True
    end.
Proof.
  split; [|split; [destruct cols; reflexivity|split; [exact is_price_header_spec|]]].
  - unfold detect_price_col. pose proof (scan_price_col_spec cols) as H.
    destruct (scan_price_col lower cols) as [c|]; [now left|].
    destruct (2 <=? List.length cols)%nat eqn:E.
    + apply Nat.leb_le in E.
      assert (Hne : cols <> []) by (destruct cols; [cbn in E; lia|discriminate]).
      rewrite (last_map_Some cols ""%string Hne). right. repeat split; [exact H|exact E|].
      exists (List.removelast cols). now apply app_removelast_last.
    + apply Nat.leb_gt in E. now split.
  - intros df0. pose proof (load_frame_spec df0) as H. cbv zeta in H.
    assert (E : df_columns (rename_strip strip df0) = map strip (df_columns df0)).
    { unfold df_columns, rename_strip. rewrite !List.map_map. reflexivity. }
    rewrite E in H.
    destruct (load_frame strip lower parse_number df0) as [[[df nc] pc]| |]; [|exact I|exact I].
    destruct H as (H1 & H2 & _). now split.
Qed.

(** ** Price cells *)

Lemma fillna0_not_nan (x : float) : is_nan (fillna0 x) = false.
Proof.
  unfold fillna0. destruct (is_nan x) eqn:E; [reflexivity|exact E].
Qed.

(** C7: a price cell that holds or parses to a number is loaded as that
    number, any other cell as 0; the cleaning is a total function applied
    cell by cell, so no cell stops the load or touches another row: the load
    can only fail on the labels, and it leaves all other columns as read. *)
Theorem price_cells_coerced (cells : list cell) :
  (forall c, clean_price parse_number c =
             match c with
             | Num x => if is_nan x then 0%float else x
             | Text s => match parse_number s with
                         | Some x => if is_nan x then 0%float else x
                         | None => 0%float
                         end
             end) /\
  List.length (clean_price_column parse_number cells) = List.length cells /\
  (forall i, nth_error (clean_price_column parse_number cells) i
             = option_map (fun c => Num (clean_price parse_number c)) (nth_error cells i)) /\
  forall df0,
    match load_frame strip lower parse_number df0 with
    | Done (df, _, Some pc) =>
        exists cells0, get_column (rename_strip strip df0) pc = Some cells0 /\
                       get_column df pc = Some (clean_price_column parse_number cells0) /\
                       forall c, c <> pc -> get_column df c = get_column (rename_strip strip df0) c
    | Done (df, _, None) => df = rename_strip strip df0
    | Stopped => False
    | Raised _ =>
        exists pc, detect_price_col lower (df_columns (rename_strip strip df0)) = Some pc /\
                   (1 < count_occ string_dec (df_columns (rename_strip strip df0)) pc)%nat
    end.
Proof.
  split; [|split; [apply List.length_map|split]].
  - intros [x|s]; unfold clean_price, fillna0, to_numeric_coerce; [reflexivity|].
    destruct (parse_number s); reflexivity.
  - intros i. unfold clean_price_column. apply nth_error_map.
  - intros df0. pose proof (load_frame_spec df0) as H. cbv zeta in H.
    destruct (load_frame strip lower parse_number df0) as [[[df nc] pc]| |]; [|exact H|exact H].
    destruct H as (_ & _ & _ & H). exact H.
Qed.

End LoaderProperties.

(** ** The sign of a loaded price *)

(** What line 38 makes of one cell, by what [pd.to_numeric] reads in it. *)
Lemma clean_price_cases (parse_number : string -> option float) (c : cell) :
  let raw := to_numeric_coerce parse_number c in
  let price := clean_price parse_number c in
  is_nan price = false /\
  (is_nan raw = true -> price = 0%float) /\
  (is_nan raw = false -> price = raw) /\
  fge price 0 = (is_nan raw || fge raw 0).
Proof.
  cbv zeta. unfold clean_price. split; [apply fillna0_not_nan|].
  unfold fillna0. destruct (is_nan (to_numeric_coerce parse_number c)); repeat split;
    intros; congruence.
Qed.

(** C4, as the code has it.  After a successful load the price column of
    the frame is the price column of the sheet with every cell replaced by
    its cleaned value, and every unit price the lookup returns is one of
    these values.  A cleaned value is never NaN; a cell that is not numeric
    (a blank cell, or text that is no number) gives 0 and a numeric cell
    keeps its number, so the value is >= 0 exactly when the cell was not
    numeric or held a number >= 0: a negative number is kept as it is. *)
Theorem loaded_price_sign (strip lower : string -> string)
    (parse_number : string -> option float) df0 df name_col pc :
  load_frame strip lower parse_number df0 = Done (df, name_col, Some pc) ->
  exists cells0,
    get_column (rename_strip strip df0) pc = Some cells0 /\
    get_column df pc = Some (map (fun c => Num (clean_price parse_number c)) cells0) /\
    (forall nc art price,
       unit_price df nc (Some pc) art = Some price ->
       exists c, In c cells0 /\ price = clean_price parse_number c) /\
    (forall c,
       let raw := to_numeric_coerce parse_number c in
       let price := clean_price parse_number c in
       is_nan price = false /\
       (is_nan raw = true -> price = 0%float) /\
       (is_nan raw = false -> price = raw) /\
       fge price 0 = (is_nan raw || fge raw 0)) /\
    (forall s, parse_number s = None -> clean_price parse_number (Text s) = 0%float) /\
    (forall x, is_nan x = false -> clean_price parse_number (Num x) = x).
Proof.
  intros H.
  pose proof (load_frame_spec strip lower parse_number df0) as S. cbv zeta in S.
  rewrite H in S. destruct S as (_ & _ & _ & cells0 & Hc1 & Hc2 & _).
  exists cells0. split; [exact Hc1|]. split; [exact Hc2|]. split; [|split; [|split]].
  - intros nc art price. unfold unit_price, row_price.
    destruct (row_index df nc art) as [i|]; [|discriminate].
    rewrite Hc2. unfold clean_price_column. rewrite List.nth_error_map.
    destruct (nth_error cells0 i) as [c|] eqn:Ei; [|discriminate]. cbn.
    intros E. injection E as <-. exists c. split; [|reflexivity].
    exact (List.nth_error_In _ _ Ei).
  - intros c. apply clean_price_cases.
  - intros s Hs. unfold clean_price. cbn. rewrite Hs. reflexivity.
  - intros x Hx. unfold clean_price, fillna0. cbn. rewrite Hx. reflexivity.
Qed.

(** C4 fails on a numeric cell below zero: the sheet loads with the price
    -5 unchanged, whatever the text parser is. *)
Lemma negative_price_kept :
  (forall parse_number, clean_price parse_number (Num (-5)%float) = (-5)%float) /\
  load_frame py_strip py_lower parse_digits negative_sheet
    = Done (negative_sheet, Some "Artikel"%string, Some "Preis pro Stück"%string) /\
  unit_price negative_sheet "Artikel" (Some "Preis pro Stück"%string) (Text "Tisch")
    = Some (-5)%float /\
  fge (-5) 0 = false.
Proof.
  repeat split; vm_compute; reflexivity.
Qed.

(** ** A failed load *)

Lemma ends_with_app (a suf : string) : ends_with suf (a ++ suf) = true.
Proof.
  induction a as [|c a IH].
  - rewrite append_nil. destruct suf; cbn [ends_with]; now rewrite String.eqb_refl.
  - rewrite append_cons. cbn [ends_with]. rewrite IH. apply orb_true_r.
Qed.

(** The catalog file and the upload target are different files, wherever
    the script runs. *)
Lemma catalog_path_not_upload (cwd : string) :
  abspath cwd "Miete.xlsx" <> "/mnt/data/Miete_uploaded.xlsx"%string.
Proof.
  change (abspath cwd "Miete.xlsx") with (cwd ++ "/Miete.xlsx")%string.
  intros H. pose proof (ends_with_app cwd "/Miete.xlsx") as E.
  rewrite H in E. vm_compute in E. discriminate.
Qed.

(** ** Steps that do not read files *)

Lemma oblivious_ret {A} (a : A) : oblivious (ret a).
Proof. intros fs1 fs2. reflexivity. Qed.

Lemma oblivious_show e : oblivious (show e).
Proof. intros fs1 fs2. reflexivity. Qed.

Lemma oblivious_raise {A} exn : oblivious (@raise A exn).
Proof. intros fs1 fs2. reflexivity. Qed.

Lemma oblivious_stop {A} : oblivious (@st_stop A).
Proof. intros fs1 fs2. reflexivity. Qed.

Lemma oblivious_write path data : oblivious (write_file path data).
Proof. intros fs1 fs2. reflexivity. Qed.

(** The view of a sequence is fixed by the view of its first step when what
    follows reads no file. *)
Lemma bind_view {A B} (m : script A) (k : A -> script B) fs1 fs2 :
  view (m fs1) = view (m fs2) -> (forall a, oblivious (k a)) ->
  view (bind m k fs1) = view (bind m k fs2).
Proof.
  unfold bind, view. intros Hm Hk.
  destruct (m fs1) as [[f1 ev1] [a1| |e1]], (m fs2) as [[f2 ev2] [a2| |e2]];
    cbn [fst snd] in Hm; try discriminate; try (injection Hm as -> ->); try reflexivity.
  - specialize (Hk a2 f1 f2). unfold view in Hk.
    destruct (k a2 f1) as [[g1 w1] r1], (k a2 f2) as [[g2 w2] r2]. cbn [fst snd] in *.
    now injection Hk as -> ->.
  - injection Hm as ->. reflexivity.
Qed.

(** Showing something first changes nothing about that. *)
Lemma show_then_view {A} e (m : script A) fs1 fs2 :
  view (m fs1) = view (m fs2) ->
  view (bind (show e) (fun _ => m) fs1) = view (bind (show e) (fun _ => m) fs2).
Proof.
  unfold bind, show, view.
  destruct (m fs1) as [[f1 ev1] r1], (m fs2) as [[f2 ev2] r2]. cbn [fst snd].
  now intros [= -> ->].
Qed.

Lemma oblivious_bind {A B} (m : script A) (k : A -> script B) :
  oblivious m -> (forall a, oblivious (k a)) -> oblivious (bind m k).
Proof. intros Hm Hk fs1 fs2. apply bind_view; [apply Hm|exact Hk]. Qed.

Create HintDb oblivious.
#[export] Hint Resolve oblivious_ret oblivious_show oblivious_raise oblivious_stop
  oblivious_write : oblivious.

(** Steps built from such steps read no file either. *)
Ltac solve_oblivious :=
  repeat first
    [ solve [auto with oblivious]
    | apply oblivious_bind; [|intros ?]
    | match goal with |- oblivious (match ?x with _ => _ end) => destruct x end
    | match goal with |- oblivious (if ?x then _ else _) => destruct x end ].

Lemma oblivious_package_loop df nc pc qty_of sel : forall acc,
  oblivious (package_loop df nc pc qty_of sel acc).
Proof.
  induction sel as [|art rest IH]; intros acc; cbn [package_loop]; [auto with oblivious|].
  destruct (row_index df nc art); [|auto with oblivious].
  apply oblivious_bind; [auto with oblivious|intros _].
  destruct (row_price df pc n); auto with oblivious.
Qed.

Section AppProperties.

Variable strip : string -> string.
Variable lower : string -> string.
Variable parse_number : string -> option float.
Variable read_excel : string -> option DataFrame.
Variable str_contains : string -> cell -> bool.
Variable fmt2 : float -> string.
Variable str_of_int : Z -> string.
Variable str_of_cell : cell -> string.
Variable today : string.
Variable stamp : string.
Variable cwd : string.

(** C8: when the spreadsheet cannot be read, [load_data] reports the error
    and returns an empty frame; the script then shows the warning and stops
    this run with [st.stop()] before any selection widget is shown. *)
Theorem load_failure_halts (inp : inputs) (fs : files) :
  catalog_source read_excel cwd fs = None ->
  load_data strip lower parse_number read_excel cwd "Miete.xlsx" fs
    = (fs, [St_error "Fehler beim Laden der Excel-Datei"], Done (Bare_frame [])) /\
  df_empty [] = true /\
  main strip lower parse_number read_excel str_contains fmt2 str_of_int str_of_cell
       today stamp cwd inp fs
    = (fs, [St_title; St_intro; St_error "Fehler beim Laden der Excel-Datei";
            St_warning no_data_warning], Stopped).
Proof.
  unfold catalog_source. intros H.
  assert (L : load_data strip lower parse_number read_excel cwd "Miete.xlsx" fs
              = (fs, [St_error "Fehler beim Laden der Excel-Datei"], Done (Bare_frame []))).
  { unfold load_data, bind, read_file. cbv beta iota. rewrite H. reflexivity. }
  split; [exact L|split; [reflexivity|]].
  unfold main. unfold bind at 1. cbn [show]. unfold bind at 1. cbn [show].
  unfold bind at 1. rewrite L. reflexivity.
Qed.

Lemma oblivious_package_summary package_lines d v :
  oblivious (package_summary fmt2 str_of_int str_of_cell today stamp package_lines d v).
Proof.
  unfold package_summary. destruct (filter_positive package_lines); solve_oblivious.
Qed.

Lemma oblivious_admin_upload up : oblivious (admin_upload read_excel up).
Proof. unfold admin_upload. solve_oblivious. Qed.

(** C9: the upload is written to [/mnt/data/Miete_uploaded.xlsx], but the
    loader reads [Miete.xlsx]: a fresh run after the upload loads exactly
    what it loaded before, and shows the same page. *)
Theorem upload_not_loaded (bytes : string) (fs : files) :
  after_upload read_excel bytes fs =
    match read_excel bytes with
    | Some _ => <["/mnt/data/Miete_uploaded.xlsx"%string := bytes]> fs
    | None => fs
    end /\
  catalog_source read_excel cwd (after_upload read_excel bytes fs)
  = catalog_source read_excel cwd fs /\
  view (load_data strip lower parse_number read_excel cwd "Miete.xlsx"
          (after_upload read_excel bytes fs))
  = view (load_data strip lower parse_number read_excel cwd "Miete.xlsx" fs) /\
  forall inp,
    view (main strip lower parse_number read_excel str_contains fmt2 str_of_int str_of_cell
            today stamp cwd inp (after_upload read_excel bytes fs))
    = view (main strip lower parse_number read_excel str_contains fmt2 str_of_int str_of_cell
              today stamp cwd inp fs).
Proof.
  assert (E : after_upload read_excel bytes fs =
              match read_excel bytes with
              | Some _ => <["/mnt/data/Miete_uploaded.xlsx"%string := bytes]> fs
              | None => fs
              end).
  { unfold after_upload, admin_upload. destruct (read_excel bytes); reflexivity. }
  assert (C : catalog_source read_excel cwd (after_upload read_excel bytes fs)
              = catalog_source read_excel cwd fs).
  { rewrite E. unfold catalog_source. destruct (read_excel bytes); [|reflexivity].
    unfold files in *. rewrite lookup_insert_ne; [reflexivity|].
    intros H. symmetry in H. exact (catalog_path_not_upload _ H). }
  assert (L : view (load_data strip lower parse_number read_excel cwd "Miete.xlsx"
                      (after_upload read_excel bytes fs))
              = view (load_data strip lower parse_number read_excel cwd "Miete.xlsx" fs)).
  { unfold catalog_source in C. unfold load_data, bind, read_file. cbv beta iota.
    rewrite C. destruct (match fs !! abspath cwd "Miete.xlsx" with
                         | Some b => read_excel b | None => None end); [|reflexivity].
    destruct (load_frame strip lower parse_number d) as [[[? ?] ?]| |]; reflexivity. }
  split; [exact E|split; [exact C|split; [exact L|]]].
  intros inp. unfold main. do 2 apply show_then_view.
  apply bind_view; [exact L|]. intros [df|df nc pc]; cbv beta iota zeta.
  - solve_oblivious.
  - pose proof oblivious_package_loop. pose proof oblivious_package_summary.
    pose proof oblivious_admin_upload. solve_oblivious.
Qed.

End AppProperties.

(** ** The properties at concrete inputs *)


(** Scenario E: no catalog file on disk. *)
Lemma load_failure_halts_witness :
  main py_strip py_lower parse_digits (fun _ => None) (fun _ _ => false)
       (fun _ => "0.00"%string) (fun _ => "1"%string) (fun _ => "x"%string)
       "2024-01-01" "20240101_000000" "/mnt/data"
       (mk_inputs 19 0%float "" [] (fun _ => 1) None) ∅
  = (∅, [St_title; St_intro; St_error "Fehler beim Laden der Excel-Datei";
         St_warning no_data_warning], Stopped).
Proof.
  apply load_failure_halts. reflexivity.
Defined.

(** After uploading a sheet with the article "neu", a fresh run still loads
    the article "alt" of [Miete.xlsx]. *)
Example reload_keeps_old_catalog :
  let fs0 : files := {[ "/mnt/data/Miete.xlsx"%string := "alt"%string ]} in
  let fs1 := after_upload read_one_article "neu" fs0 in
  fs1 !! "/mnt/data/Miete_uploaded.xlsx"%string = Some "neu"%string /\
  snd (load_data py_strip py_lower parse_digits read_one_article "/mnt/data" "Miete.xlsx" fs1)
  = Done (Triple [ ("Artikel"%string, [Text "alt"]); ("Preis pro Stück"%string, [Num 1%float]) ]
                 (Some "Artikel"%string) (Some "Preis pro Stück"%string)).
Proof.
  vm_compute. split; reflexivity.
Qed.

(** * Binary64 arithmetic

    The primitive operations are specified by [SpecFloat]'s functions at
    precision 53 and exponent bound 1024; the facts below are about those. *)

Lemma dg_pos m : 0 < dg m.
Proof. unfold dg. lia. Qed.

(** A mantissa of [d] digits lies in [[2^(d-1), 2^d)]. *)
Lemma dg_bounds (m : positive) : 2 ^ (dg m - 1) <= Zpos m < 2 ^ dg m.
Proof.
  unfold dg. induction m as [m IH|m IH|]; cbn [digits2_pos].
  - rewrite Pos2Z.inj_succ.
    replace (Z.succ (Zpos (digits2_pos m)) - 1) with (Z.succ (Zpos (digits2_pos m) - 1)) by lia.
    rewrite !Z.pow_succ_r by lia. lia.
  - rewrite Pos2Z.inj_succ.
    replace (Z.succ (Zpos (digits2_pos m)) - 1) with (Z.succ (Zpos (digits2_pos m) - 1)) by lia.
    rewrite !Z.pow_succ_r by lia. lia.
  - cbn. lia.
Qed.

Lemma pow2_pos k : 0 <= k -> 0 < 2 ^ k.
Proof. intros. apply Z.pow_pos_nonneg; lia. Qed.

Lemma pow2_le a b : 0 <= a <= b -> 2 ^ a <= 2 ^ b.
Proof. intros. apply Z.pow_le_mono_r; lia. Qed.

Lemma pow2_lt a b : 0 <= a < b -> 2 ^ a < 2 ^ b.
Proof. intros. apply Z.pow_lt_mono_r; lia. Qed.

(** The number of digits is fixed by the power-of-two bracket. *)
Lemma dg_unique (m : positive) k : 2 ^ (k - 1) <= Zpos m < 2 ^ k -> 1 <= k -> dg m = k.
Proof.
  intros [H1 H2] Hk. pose proof (dg_bounds m) as [B1 B2]. pose proof (dg_pos m).
  destruct (Z.lt_trichotomy (dg m) k) as [L|[E|G]]; [|exact E|].
  - assert (2 ^ dg m <= 2 ^ (k - 1)) by (apply pow2_le; lia). lia.
  - assert (2 ^ k <= 2 ^ (dg m - 1)) by (apply pow2_le; lia). lia.
Qed.

Lemma Zdigits2_nonneg m : 0 <= Zdigits2 m.
Proof. destruct m; cbn; lia. Qed.

(** The same bracket for [Zdigits2]. *)
Lemma Zdigits2_bounds m : 0 < m -> 2 ^ (Zdigits2 m - 1) <= m < 2 ^ Zdigits2 m.
Proof. destruct m; try lia. intros _. apply dg_bounds. Qed.

(** The number of digits is fixed by the bracket. *)
Lemma Zdigits2_unique m k : 2 ^ (k - 1) <= m < 2 ^ k -> 1 <= k -> Zdigits2 m = k.
Proof.
  intros H Hk. assert (0 < m).
  { assert (0 < 2 ^ (k - 1)) by (apply pow2_pos; lia). lia. }
  destruct m; try lia. now apply dg_unique.
Qed.

Lemma Zdigits2_ge_1 m : 0 < m -> 1 <= Zdigits2 m.
Proof. destruct m; try lia. intros _. pose proof (dg_pos p). cbn. unfold dg in *. lia. Qed.

(** Digits of a quotient by a power of two. *)
Lemma Zdigits2_div m n : 0 < m -> 0 <= n < Zdigits2 m -> Zdigits2 (m / 2 ^ n) = Zdigits2 m - n.
Proof.
  intros Hm Hn. pose proof (Zdigits2_bounds m Hm) as [B1 B2].
  assert (P : 0 < 2 ^ n) by (apply pow2_pos; lia).
  apply Zdigits2_unique; [|lia]. split.
  - apply Z.div_le_lower_bound; [lia|].
    rewrite <- Z.pow_add_r by lia. replace (n + (Zdigits2 m - n - 1)) with (Zdigits2 m - 1) by lia. lia.
  - apply Z.div_lt_upper_bound; [lia|].
    rewrite <- Z.pow_add_r by lia. replace (n + (Zdigits2 m - n)) with (Zdigits2 m) by lia. lia.
Qed.

(** Shifting out all digits leaves 0. *)
Lemma div_small_digits m n : 0 <= m -> Zdigits2 m <= n -> m / 2 ^ n = 0.
Proof.
  intros Hm Hn. destruct (Z.eq_dec m 0) as [->|Hne]; [apply Z.div_0_l; pose proof (pow2_pos n); pose proof (Zdigits2_nonneg 0); lia|].
  pose proof (Zdigits2_bounds m ltac:(lia)) as [_ B].
  apply Z.div_small. split; [lia|].
  assert (2 ^ Zdigits2 m <= 2 ^ n) by (apply pow2_le; pose proof (Zdigits2_nonneg m); lia). lia.
Qed.

(** ** Shifting right *)

Lemma shr_1_m mrs : 0 <= shr_m mrs -> shr_m (shr_1 mrs) = shr_m mrs / 2.
Proof.
  destruct mrs as [m r s]. cbn [shr_m]. intros Hm.
  destruct m as [|p|p]; [reflexivity| |lia].
  destruct p as [p|p|]; cbn [shr_1 shr_m].
  - rewrite Pos2Z.inj_xI. apply Z.div_unique with (r := 1); lia.
  - rewrite Pos2Z.inj_xO. apply Z.div_unique with (r := 0); lia.
  - reflexivity.
Qed.

(** Shifting out a 0 digit loses nothing. *)
Lemma shr_1_exact mrs :
  0 <= shr_m mrs -> exact_rec mrs -> shr_m mrs mod 2 = 0 -> exact_rec (shr_1 mrs).
Proof.
  destruct mrs as [m r s]. unfold exact_rec. cbn [shr_m shr_r shr_s]. intros Hm [-> ->] Hmod.
  destruct m as [|p|p]; [now cbn| |lia].
  destruct p as [p|p|]; cbn [shr_1 shr_r shr_s orb]; try (now split).
  rewrite Pos2Z.inj_xI in Hmod. exfalso. Z.to_euclidean_division_equations. lia.
Qed.

(** [p] shifts divide the mantissa by [2^p], and lose nothing when it is a
    multiple of [2^p]. *)
Lemma iter_pos_shr_1 (p : positive) : forall mrs,
  0 <= shr_m mrs ->
  shr_m (SpecFloat.iter_pos shr_1 p mrs) = shr_m mrs / 2 ^ Zpos p /\
  (exact_rec mrs -> shr_m mrs mod 2 ^ Zpos p = 0 -> exact_rec (SpecFloat.iter_pos shr_1 p mrs)).
Proof.
  induction p as [p IH|p IH|]; intros mrs Hm; cbn [SpecFloat.iter_pos].
  - assert (H1 : 0 <= shr_m (shr_1 mrs)) by (rewrite shr_1_m by lia; apply Z.div_pos; lia).
    destruct (IH (shr_1 mrs) H1) as [A1 A2].
    assert (H2 : 0 <= shr_m (SpecFloat.iter_pos shr_1 p (shr_1 mrs)))
      by (rewrite A1; apply Z.div_pos; [lia|apply pow2_pos; lia]).
    destruct (IH _ H2) as [B1 B2].
    assert (E : 2 ^ Zpos p~1 = 2 * (2 ^ Zpos p * 2 ^ Zpos p)).
    { rewrite Pos2Z.inj_xI, Z.pow_add_r, Z.pow_mul_r, Z.pow_1_r by lia.
      replace (2 ^ 2) with 4 by reflexivity.
      rewrite <- Z.pow_add_r by lia. replace (Zpos p + Zpos p) with (2 * Zpos p) by lia.
      rewrite Z.pow_mul_r by lia. replace (2 ^ 2) with 4 by reflexivity. lia. }
    pose proof (pow2_pos (Zpos p) ltac:(lia)) as Pp.
    split.
    + rewrite B1, A1, shr_1_m by lia. rewrite E.
      rewrite !Z.div_div by lia. reflexivity.
    + intros Hex Hmod. rewrite E in Hmod.
      apply Z.mod_divide in Hmod; [|lia]. destruct Hmod as [k Hk].
      assert (Hm2 : shr_m mrs mod 2 = 0).
      { rewrite Hk. replace (k * (2 * (2 ^ Zpos p * 2 ^ Zpos p))) with ((k * (2 ^ Zpos p * 2 ^ Zpos p)) * 2) by lia.
        apply Z.mod_mul. lia. }
      assert (Hs1 : shr_m (shr_1 mrs) = k * 2 ^ Zpos p * 2 ^ Zpos p).
      { rewrite shr_1_m by lia. rewrite Hk.
        replace (k * (2 * (2 ^ Zpos p * 2 ^ Zpos p))) with ((k * 2 ^ Zpos p * 2 ^ Zpos p) * 2) by lia.
        apply Z.div_mul. lia. }
      apply B2.
      * apply A2; [now apply shr_1_exact|]. rewrite Hs1. apply Z.mod_mul. lia.
      * rewrite A1, Hs1, Z.div_mul by lia. apply Z.mod_mul. lia.
  - destruct (IH mrs Hm) as [A1 A2].
    assert (H2 : 0 <= shr_m (SpecFloat.iter_pos shr_1 p mrs))
      by (rewrite A1; apply Z.div_pos; [lia|apply pow2_pos; lia]).
    destruct (IH _ H2) as [B1 B2].
    assert (E : 2 ^ Zpos p~0 = 2 ^ Zpos p * 2 ^ Zpos p).
    { rewrite Pos2Z.inj_xO. rewrite <- Z.pow_add_r by lia. f_equal. lia. }
    pose proof (pow2_pos (Zpos p) ltac:(lia)) as Pp.
    split.
    + rewrite B1, A1, E. rewrite Z.div_div by lia. reflexivity.
    + intros Hex Hmod. rewrite E in Hmod.
      apply Z.mod_divide in Hmod; [|lia]. destruct Hmod as [k Hk].
      apply B2.
      * apply A2; [exact Hex|]. rewrite Hk.
        replace (k * (2 ^ Zpos p * 2 ^ Zpos p)) with (k * 2 ^ Zpos p * 2 ^ Zpos p) by lia.
        apply Z.mod_mul. lia.
      * rewrite A1, Hk.
        replace (k * (2 ^ Zpos p * 2 ^ Zpos p)) with (k * 2 ^ Zpos p * 2 ^ Zpos p) by lia.
        rewrite Z.div_mul by lia. apply Z.mod_mul. lia.
  - split.
    + rewrite shr_1_m by lia. reflexivity.
    + intros Hex Hmod. apply shr_1_exact; [lia|exact Hex|exact Hmod].
Qed.

Lemma shr_record_of_loc_m m l : shr_m (shr_record_of_loc m l) = m.
Proof. destruct l as [|[]]; reflexivity. Qed.

Lemma shr_record_of_loc_exact m : exact_rec (shr_record_of_loc m loc_Exact).
Proof. split; reflexivity. Qed.

(** [shr_fexp] shifts the mantissa to the exponent of the format when that
    is coarser, and leaves it as it is otherwise. *)
Lemma shr_fexp_spec m e l :
  0 <= m ->
  exists mrs n,
    n = Z.max 0 (fexp64 (Zdigits2 m + e) - e) /\
    shr_fexp prec emax m e l = (mrs, e + n) /\
    shr_m mrs = m / 2 ^ n /\
    (l = loc_Exact -> m mod 2 ^ n = 0 -> exact_rec mrs).
Proof.
  intros Hm. unfold shr_fexp, shr. change (fexp prec emax) with fexp64.
  destruct (fexp64 (Zdigits2 m + e) - e) as [|p|p] eqn:E.
  - exists (shr_record_of_loc m l), 0.
    rewrite Z.add_0_r, shr_record_of_loc_m, Z.pow_0_r, Z.div_1_r.
    split; [lia|split; [reflexivity|split; [reflexivity|]]].
    intros -> _. apply shr_record_of_loc_exact.
  - exists (SpecFloat.iter_pos shr_1 p (shr_record_of_loc m l)), (Zpos p).
    destruct (iter_pos_shr_1 p (shr_record_of_loc m l)) as [A1 A2].
    { now rewrite shr_record_of_loc_m. }
    rewrite shr_record_of_loc_m in A1, A2.
    split; [lia|split; [reflexivity|split; [exact A1|]]].
    intros -> Hmod. apply A2; [apply shr_record_of_loc_exact|exact Hmod].
  - exists (shr_record_of_loc m l), 0.
    rewrite Z.add_0_r, shr_record_of_loc_m, Z.pow_0_r, Z.div_1_r.
    split; [lia|split; [reflexivity|split; [reflexivity|]]].
    intros -> _. apply shr_record_of_loc_exact.
Qed.

(** Rounding to nearest moves a cut mantissa up by at most one. *)
Lemma rne_bounds m l : m <= round_nearest_even m l <= m + 1.
Proof.
  destruct l as [|[]]; cbn [round_nearest_even]; try lia.
  destruct (Z.even m); lia.
Qed.

(** Nothing lost, nothing rounded. *)
Lemma rne_exact mrs :
  exact_rec mrs -> round_nearest_even (shr_m mrs) (loc_of_shr_record mrs) = shr_m mrs.
Proof.
  destruct mrs as [m r s]. intros [H1 H2]. cbn in H1, H2. subst. reflexivity.
Qed.

(** Cutting a mantissa to the exponent of the format gives a canonical one. *)
Lemma canon_shift m e :
  0 <= m -> e <= fexp64 (Zdigits2 m + e) ->
  canon (m / 2 ^ (fexp64 (Zdigits2 m + e) - e)) (fexp64 (Zdigits2 m + e)).
Proof.
  intros Hm Hn. set (e' := fexp64 (Zdigits2 m + e)) in *. set (n := e' - e).
  unfold canon. pose proof (Zdigits2_nonneg m) as Hd.
  destruct (Z_lt_le_dec n (Zdigits2 m)) as [L|G].
  - assert (0 < m) by (destruct m; cbn in *; lia).
    rewrite Zdigits2_div by lia. replace (Zdigits2 m - n + e') with (Zdigits2 m + e) by lia.
    reflexivity.
  - rewrite div_small_digits by lia. cbn [Zdigits2]. subst e' n. unfold fexp64 in *. lia.
Qed.

(** A canonical mantissa has at most 53 digits. *)
Lemma canon_digits_le m e : 0 < m -> canon m e -> Zdigits2 m <= 53 /\ -1074 <= e.
Proof. unfold canon, fexp64. lia. Qed.

(** Above the smallest exponent a canonical mantissa has 53 digits. *)
Lemma canon_normal m e : 0 < m -> canon m e -> -1074 < e -> Zdigits2 m = 53.
Proof. unfold canon, fexp64. lia. Qed.

Lemma canon_emin m e : canon m e -> -1074 <= e.
Proof. unfold canon, fexp64. lia. Qed.

(** Rounding up a canonical mantissa by at most one, then normalising again. *)
Lemma renorm m' e' m1 :
  0 <= m' -> canon m' e' -> m' <= m1 <= m' + 1 ->
  exists mrs'' e'',
    shr_fexp prec emax m1 e' loc_Exact = (mrs'', e'') /\
    0 <= shr_m mrs'' /\
    shr_m mrs'' * 2 ^ (e'' - e') = m1 /\
    e' <= e'' /\
    canon (shr_m mrs'') e''.
Proof.
  intros Hm' Hc H1.
  destruct (shr_fexp_spec m1 e' loc_Exact ltac:(lia)) as (mrs & n & Hn & Hs & Hmrs & _).
  exists mrs, (e' + n). split; [exact Hs|].
  assert (Hcases : n = 0 /\ canon m1 e' \/ n = 1 /\ m1 = 2 ^ 53).
  { destruct (Z.eq_dec m1 m') as [->|Hne]; [left; split; [unfold canon in Hc; lia|exact Hc]|].
    assert (m1 = m' + 1) by lia. subst m1.
    destruct (Z.eq_dec m' 0) as [->|Hpos].
    - left. unfold canon in *. change (Zdigits2 (0 + 1)) with 1 in *.
      change (Zdigits2 0) with 0 in *. unfold fexp64 in *. split; lia.
    - pose proof (Zdigits2_bounds m' ltac:(lia)) as [B1 B2].
      pose proof (canon_digits_le m' e' ltac:(lia) Hc) as [D1 D2].
      pose proof (Zdigits2_ge_1 m' ltac:(lia)).
      destruct (Z.eq_dec (m' + 1) (2 ^ Zdigits2 m')) as [Ep|Np].
      + assert (Hd : Zdigits2 (m' + 1) = Zdigits2 m' + 1).
        { apply Zdigits2_unique; [|lia]. rewrite Ep.
          replace (Zdigits2 m' + 1 - 1) with (Zdigits2 m') by lia. split; [lia|].
          apply pow2_lt. lia. }
        rewrite Hd in Hn. unfold canon in *.
        destruct (Z.eq_dec (Zdigits2 m') 53) as [E53|N53].
        * right. rewrite E53 in *. unfold fexp64 in *. split; lia.
        * left. rewrite Hd. unfold fexp64 in *. split; lia.
      + assert (Hd : Zdigits2 (m' + 1) = Zdigits2 m').
        { apply Zdigits2_unique; [|lia]. lia. }
        left. unfold canon in *. rewrite Hd in *. split; lia. }
  destruct Hcases as [[-> Hc1]|[-> ->]].
  - rewrite Z.pow_0_r, Z.div_1_r in Hmrs. rewrite Hmrs.
    replace (e' + 0 - e') with 0 by lia. rewrite Z.pow_0_r, Z.add_0_r.
    repeat split; [lia|lia|lia|exact Hc1].
  - assert (Hm2 : shr_m mrs = 2 ^ 52) by (rewrite Hmrs; reflexivity).
    rewrite Hm2. replace (e' + 1 - e') with 1 by lia.
    repeat split; [cbn; lia|lia|].
    assert (Zdigits2 m' = 53).
    { assert (0 < m') by (cbn in H1; lia).
      pose proof (canon_digits_le m' e' ltac:(lia) Hc) as [D1 D2].
      destruct (Z.eq_dec (Zdigits2 m') 53); [assumption|].
      pose proof (Zdigits2_bounds m' ltac:(lia)) as [B1 B2].
      assert (2 ^ Zdigits2 m' <= 2 ^ 52) by (apply pow2_le; pose proof (Zdigits2_nonneg m'); lia).
      change (2 ^ 53) with 9007199254740992 in H1. change (2 ^ 52) with 4503599627370496 in *. lia. }
    unfold canon in *. change (Zdigits2 (2 ^ 52)) with 53. rewrite H in Hc. unfold fexp64 in *. lia.
Qed.

(** What [binary_round_aux] returns on an input that is at least as fine as
    the format: the mantissa is cut to the format's exponent [e1], moved up
    by at most one, and normalised. *)
Lemma bra_spec sx m e l :
  0 <= m -> e <= fexp64 (Zdigits2 m + e) ->
  exists m1 m2 e2,
    let e1 := fexp64 (Zdigits2 m + e) in
    m / 2 ^ (e1 - e) <= m1 <= m / 2 ^ (e1 - e) + 1 /\
    (l = loc_Exact -> m mod 2 ^ (e1 - e) = 0 -> m1 = m / 2 ^ (e1 - e)) /\
    0 <= m2 /\ m2 * 2 ^ (e2 - e1) = m1 /\ e1 <= e2 /\ canon m2 e2 /\
    binary_round_aux prec emax sx m e l = round_result sx m2 e2.
Proof.
  intros Hm Hn. cbv zeta.
  destruct (shr_fexp_spec m e l Hm) as (mrs & n & En & Hs & Hmrs & Hex).
  assert (En' : n = fexp64 (Zdigits2 m + e) - e) by lia. clear En. subst n.
  set (e1 := fexp64 (Zdigits2 m + e)) in *.
  replace (e + (e1 - e)) with e1 in Hs by lia.
  set (m1 := round_nearest_even (shr_m mrs) (loc_of_shr_record mrs)).
  assert (Hm' : 0 <= m / 2 ^ (e1 - e)) by (apply Z.div_pos; [lia|apply pow2_pos; lia]).
  assert (B : m / 2 ^ (e1 - e) <= m1 <= m / 2 ^ (e1 - e) + 1).
  { subst m1. rewrite <- Hmrs. apply rne_bounds. }
  destruct (renorm (m / 2 ^ (e1 - e)) e1 m1 Hm' (canon_shift m e Hm Hn) B)
    as (mrs2 & e2 & Hs2 & P2 & V2 & L2 & C2).
  exists m1, (shr_m mrs2), e2. repeat split; try assumption; try lia.
  - intros -> Hmod. subst m1. rewrite rne_exact; [exact Hmrs|]. now apply Hex.
  - unfold binary_round_aux. rewrite Hs. fold m1. rewrite Hs2.
    unfold round_result. destruct (shr_m mrs2); reflexivity.
Qed.

(** ** Values *)

Lemma V_shift m e e0 : -1074 <= e0 <= e -> V m e = m * 2 ^ (e - e0) * 2 ^ (e0 + 1074).
Proof.
  intros H. unfold V. rewrite <- Z.mul_assoc. rewrite <- Z.pow_add_r by lia.
  replace (e - e0 + (e0 + 1074)) with (e + 1074) by lia. reflexivity.
Qed.

(** The value of a canonical float is below [2^(e+53)]. *)
Lemma V_upper m e : 0 < m -> canon m e -> V m e < 2 ^ (e + 1127).
Proof.
  intros Hm Hc. pose proof (canon_digits_le m e Hm Hc) as [D E].
  pose proof (Zdigits2_bounds m Hm) as [_ B]. pose proof (Zdigits2_ge_1 m Hm).
  assert (2 ^ Zdigits2 m <= 2 ^ 53) by (apply pow2_le; lia).
  unfold V. replace (e + 1127) with (53 + (e + 1074)) by lia.
  rewrite (Z.pow_add_r 2 53 (e + 1074)) by lia.
  apply Z.mul_lt_mono_pos_r; [apply pow2_pos; lia|lia].
Qed.

(** The value of a normal float is at least [2^(e+52)]. *)
Lemma V_lower m e : 0 < m -> canon m e -> -1074 < e -> 2 ^ (e + 1126) <= V m e.
Proof.
  intros Hm Hc He. pose proof (canon_normal m e Hm Hc He) as D.
  pose proof (Zdigits2_bounds m Hm) as [B _]. rewrite D in B.
  unfold V. replace (e + 1126) with (52 + (e + 1074)) by lia.
  rewrite (Z.pow_add_r 2 52 (e + 1074)) by lia.
  apply Z.mul_le_mono_nonneg_r; [apply Z.lt_le_incl, pow2_pos; lia|exact B].
Qed.

Lemma V_pos m e : 0 < m -> -1074 <= e -> 0 < V m e.
Proof. intros. unfold V. apply Z.mul_pos_pos; [lia|apply pow2_pos; lia]. Qed.

(** Between canonical floats the smaller exponent is the smaller value. *)
Lemma V_lt_exp m1 e1 m2 e2 :
  0 < m1 -> 0 < m2 -> canon m1 e1 -> canon m2 e2 -> e1 < e2 -> V m1 e1 < V m2 e2.
Proof.
  intros H1 H2 C1 C2 L. pose proof (canon_emin _ _ C1).
  pose proof (V_upper m1 e1 H1 C1). pose proof (V_lower m2 e2 H2 C2 ltac:(lia)).
  assert (2 ^ (e1 + 1127) <= 2 ^ (e2 + 1126)) by (apply pow2_le; lia). lia.
Qed.

(** [SFcompare] on canonical mantissas compares the values. *)
Lemma canon_compare (m1 m2 : positive) e1 e2 :
  canon (Zpos m1) e1 -> canon (Zpos m2) e2 ->
  match e1 ?= e2 with
  | Lt => Lt
  | Gt => Gt
  | Eq => Pos.compare_cont Eq m1 m2
  end = (V (Zpos m1) e1 ?= V (Zpos m2) e2).
Proof.
  intros C1 C2. destruct (Z.compare_spec e1 e2) as [->|L|G].
  - unfold V. pose proof (canon_emin _ _ C2).
    rewrite <- Zmult_compare_compat_r by (apply Z.lt_gt, pow2_pos; lia). reflexivity.
  - symmetry. apply Z.compare_lt_iff. apply V_lt_exp; auto; lia.
  - symmetry. apply Z.compare_gt_iff. apply V_lt_exp; auto; lia.
Qed.

(** [<=] on non-negative floats is the order of their values. *)
Lemma SFleb_nonneg x y :
  nonneg x -> nonneg y -> (SFleb x y = true <-> le_ext (val x) (val y)).
Proof.
  intros Hx Hy. unfold SFleb.
  destruct x as [sx|sx| |sx mx ex], y as [sy|sy| |sy my ey]; cbn in Hx, Hy; try tauto;
    repeat match goal with H : _ /\ _ |- _ => destruct H end; subst;
    cbn [SFcompare val le_ext];
    repeat match goal with
      | C : canon (Zpos ?m) ?e |- _ =>
          lazymatch goal with
          | _ : 0 < V (Zpos m) e |- _ => fail
          | _ => pose proof (V_pos (Zpos m) e ltac:(lia) (canon_emin _ _ C))
          end
      end.
  all: try (split; intros; try reflexivity; try discriminate; try lia; tauto).
  rewrite (canon_compare mx my ex ey) by assumption.
  destruct (Z.compare_spec (V (Zpos mx) ex) (V (Zpos my) ey));
    split; intros; try lia; try reflexivity; discriminate.
Qed.

(** ** Rounding is monotone around representable numbers *)

Lemma round_result_nonneg m2 e2 : 0 <= m2 -> canon m2 e2 -> nonneg (round_result false m2 e2).
Proof.
  intros Hm Hc. destruct m2 as [|p|p]; cbn; [trivial| |lia].
  destruct (e2 <=? 971) eqn:E; cbn; auto. apply Z.leb_le in E. auto.
Qed.

(** Rounding a non-negative mantissa gives a non-negative float. *)
Lemma round_nonneg m e l :
  0 <= m -> e <= fexp64 (Zdigits2 m + e) -> nonneg (binary_round_aux prec emax false m e l).
Proof.
  intros Hm He. destruct (bra_spec false m e l Hm He) as (m1 & m2 & e2 & H).
  cbv zeta in H. destruct H as (_ & _ & P2 & _ & _ & C2 & ->).
  now apply round_result_nonneg.
Qed.

Lemma fexp64_mono a b : a <= b -> fexp64 a <= fexp64 b.
Proof. unfold fexp64. lia. Qed.

Lemma fexp64_emin a : -1074 <= fexp64 a.
Proof. unfold fexp64. lia. Qed.

(** One scaling in two steps. *)
Lemma scale_split mz ez e e1 :
  e <= e1 <= ez -> mz * 2 ^ (ez - e) = mz * 2 ^ (ez - e1) * 2 ^ (e1 - e).
Proof.
  intros H. rewrite <- Z.mul_assoc, <- Z.pow_add_r by lia.
  replace (ez - e1 + (e1 - e)) with (ez - e) by lia. reflexivity.
Qed.

(** An exact value at or below a representable number rounds to at most
    that number. *)
Lemma round_le m e l mz ez :
  0 <= m -> e <= fexp64 (Zdigits2 m + e) ->
  0 < mz -> canon mz ez -> ez <= 971 -> e <= ez ->
  m <= mz * 2 ^ (ez - e) ->
  (l <> loc_Exact -> m + 1 <= mz * 2 ^ (ez - e)) ->
  nonneg (binary_round_aux prec emax false m e l) /\
  le_ext (val (binary_round_aux prec emax false m e l)) (Some (V mz ez)).
Proof.
  intros Hm He Hmz Cz Bz Hez Hle Hlt.
  split; [now apply round_nonneg|].
  destruct (bra_spec false m e l Hm He) as (m1 & m2 & e2 & H). cbv zeta in H.
  set (e1 := fexp64 (Zdigits2 m + e)) in *.
  destruct H as (B & Hex & P2 & V2 & L2 & C2 & ->).
  pose proof (Zdigits2_ge_1 mz Hmz) as Dz.
  pose proof (Zdigits2_bounds mz Hmz) as [_ Uz].
  assert (E1 : e1 <= ez).
  { destruct (Z_le_gt_dec e1 ez) as [|G]; [assumption|exfalso].
    assert (D : Zdigits2 mz + ez < Zdigits2 m + e).
    { destruct (Z_lt_le_dec (Zdigits2 mz + ez) (Zdigits2 m + e)) as [|Q]; [assumption|].
      apply fexp64_mono in Q. fold e1 in Q. unfold canon in Cz. lia. }
    destruct (Z.eq_dec m 0) as [->|Hne]; [cbn [Zdigits2] in D; lia|].
    pose proof (Zdigits2_bounds m ltac:(lia)) as [Lm _].
    assert (mz * 2 ^ (ez - e) < 2 ^ Zdigits2 mz * 2 ^ (ez - e))
      by (apply Z.mul_lt_mono_pos_r; [apply pow2_pos; lia|lia]).
    rewrite <- Z.pow_add_r in H by lia.
    assert (2 ^ (Zdigits2 mz + (ez - e)) <= 2 ^ (Zdigits2 m - 1)) by (apply pow2_le; lia).
    lia. }
  pose proof (fexp64_emin (Zdigits2 m + e)) as Em. fold e1 in Em.
  set (Z' := mz * 2 ^ (ez - e1)).
  pose proof (scale_split mz ez e e1 ltac:(lia)) as HZ. fold Z' in HZ. rewrite HZ in Hle, Hlt.
  pose proof (pow2_pos (e1 - e) ltac:(lia)) as Pn.
  assert (Hm1 : m1 <= Z').
  { assert (Q : m / 2 ^ (e1 - e) <= Z') by (apply Z.div_le_upper_bound; lia).
    destruct (Z.eq_dec (m / 2 ^ (e1 - e)) Z') as [Eq|Ne]; [|lia].
    pose proof (Z.mul_div_le m (2 ^ (e1 - e)) Pn) as Q2. rewrite Eq in Q2.
    assert (Em' : m = Z' * 2 ^ (e1 - e)) by lia.
    destruct l as [|c]; [|exfalso; specialize (Hlt ltac:(discriminate)); lia].
    rewrite Hex; [lia|reflexivity|]. rewrite Em'. apply Z.mod_mul. lia. }
  assert (HV : V m2 e2 = m1 * 2 ^ (e1 + 1074)).
  { rewrite (V_shift m2 e2 e1) by lia. rewrite V2. reflexivity. }
  assert (HVz : V mz ez = Z' * 2 ^ (e1 + 1074)) by (apply V_shift; lia).
  assert (Hfin : V m2 e2 <= V mz ez).
  { rewrite HV, HVz. apply Z.mul_le_mono_nonneg_r; [apply Z.lt_le_incl, pow2_pos; lia|exact Hm1]. }
  destruct m2 as [|p|p]; cbn [round_result]; [| |lia].
  - cbn. pose proof (V_pos mz ez Hmz (canon_emin _ _ Cz)). lia.
  - destruct (e2 <=? 971) eqn:E; [exact Hfin|exfalso]. apply Z.leb_gt in E.
    pose proof (V_lower (Zpos p) e2 ltac:(lia) C2 ltac:(lia)).
    pose proof (V_upper mz ez Hmz Cz).
    assert (2 ^ (ez + 1127) <= 2 ^ (e2 + 1126)) by (apply pow2_le; pose proof (canon_emin _ _ Cz); lia).
    lia.
Qed.

(** An exact value at or above a representable number rounds to at least
    that number. *)
Lemma round_ge m e l mz ez :
  0 <= m -> e <= fexp64 (Zdigits2 m + e) ->
  0 < mz -> canon mz ez -> e <= ez ->
  mz * 2 ^ (ez - e) <= m ->
  nonneg (binary_round_aux prec emax false m e l) /\
  le_ext (Some (V mz ez)) (val (binary_round_aux prec emax false m e l)).
Proof.
  intros Hm He Hmz Cz Hez Hge.
  split; [now apply round_nonneg|].
  destruct (bra_spec false m e l Hm He) as (m1 & m2 & e2 & H). cbv zeta in H.
  set (e1 := fexp64 (Zdigits2 m + e)) in *.
  destruct H as (B & Hex & P2 & V2 & L2 & C2 & ->).
  pose proof (fexp64_emin (Zdigits2 m + e)) as Em. fold e1 in Em.
  pose proof (pow2_pos (e1 - e) ltac:(lia)) as Pn.
  pose proof (pow2_pos (ez - e) ltac:(lia)) as Pz.
  assert (Hmpos : 0 < m) by nia.
  assert (HV : V m2 e2 = m1 * 2 ^ (e1 + 1074)).
  { rewrite (V_shift m2 e2 e1) by lia. rewrite V2. reflexivity. }
  pose proof (pow2_pos (e1 + 1074) ltac:(lia)) as Pe.
  assert (Hfin : V mz ez <= V m2 e2).
  { destruct (Z_le_gt_dec e1 ez) as [L|G].
    - pose proof (scale_split mz ez e e1 ltac:(lia)) as HZ. rewrite HZ in Hge.
      assert (Q : mz * 2 ^ (ez - e1) <= m / 2 ^ (e1 - e)) by (apply Z.div_le_lower_bound; lia).
      rewrite HV, (V_shift mz ez e1) by lia.
      apply Z.mul_le_mono_nonneg_r; lia.
    - pose proof (canon_emin _ _ Cz).
      assert (E1 : e1 = Zdigits2 m + e - 53) by (unfold e1, fexp64 in *; lia).
      pose proof (Zdigits2_bounds m Hmpos) as [Lm _].
      assert (Q : 2 ^ 52 <= m / 2 ^ (e1 - e)).
      { apply Z.div_le_lower_bound; [lia|]. rewrite <- Z.pow_add_r by lia.
        replace (e1 - e + 52) with (Zdigits2 m - 1) by lia. exact Lm. }
      pose proof (V_upper mz ez Hmz Cz).
      assert (2 ^ (ez + 1127) <= 2 ^ (e1 + 1126)) by (apply pow2_le; lia).
      assert (2 ^ (e1 + 1126) = 2 ^ 52 * 2 ^ (e1 + 1074)).
      { rewrite <- Z.pow_add_r by lia. f_equal. lia. }
      rewrite HV. assert (2 ^ 52 * 2 ^ (e1 + 1074) <= m1 * 2 ^ (e1 + 1074))
        by (apply Z.mul_le_mono_nonneg_r; lia).
      lia. }
  pose proof (V_pos mz ez Hmz (canon_emin _ _ Cz)).
  destruct m2 as [|p|p]; cbn [round_result]; [| |lia].
  - unfold V in Hfin at 2. lia.
  - destruct (e2 <=? 971); [exact Hfin|exact I].
Qed.

(** ** Helpers on powers of two *)

Lemma pow2_lt_inv a b : 0 <= b -> 2 ^ a < 2 ^ b -> a < b.
Proof.
  intros Hb H. destruct (Z_lt_le_dec a b) as [|G]; [assumption|].
  assert (2 ^ b <= 2 ^ a) by (apply pow2_le; lia). lia.
Qed.

Lemma Zdigits2_ge m k : 0 < m -> 0 <= k -> 2 ^ k <= m -> k + 1 <= Zdigits2 m.
Proof.
  intros Hm Hk H. pose proof (Zdigits2_bounds m Hm) as [_ U].
  pose proof (Zdigits2_nonneg m).
  assert (k < Zdigits2 m) by (apply pow2_lt_inv; lia). lia.
Qed.

(** Digits of a product. *)
Lemma Zdigits2_mul a b :
  0 < a -> 0 < b -> Zdigits2 a + Zdigits2 b - 1 <= Zdigits2 (a * b).
Proof.
  intros Ha Hb. pose proof (Zdigits2_bounds a Ha) as [La _].
  pose proof (Zdigits2_bounds b Hb) as [Lb _].
  pose proof (Zdigits2_ge_1 a Ha). pose proof (Zdigits2_ge_1 b Hb).
  assert (2 ^ (Zdigits2 a - 1 + (Zdigits2 b - 1)) <= a * b).
  { rewrite Z.pow_add_r by lia. apply Z.mul_le_mono_nonneg; try lia;
      apply Z.lt_le_incl, pow2_pos; lia. }
  pose proof (Zdigits2_ge (a * b) (Zdigits2 a - 1 + (Zdigits2 b - 1)) ltac:(nia) ltac:(lia) H1).
  lia.
Qed.

(** The same inequality between two dyadic numbers at another common scale. *)
Lemma le_rescale a b p q p' q' :
  0 <= p -> 0 <= q -> 0 <= p' -> 0 <= q' -> p - q = p' - q' ->
  a * 2 ^ p <= b * 2 ^ q -> a * 2 ^ p' <= b * 2 ^ q'.
Proof.
  intros Hp Hq Hp' Hq' E H.
  destruct (Z_le_gt_dec p p') as [L|G].
  - replace p' with (p + (p' - p)) by lia. replace q' with (q + (p' - p)) by lia.
    rewrite !Z.pow_add_r, !Z.mul_assoc by lia.
    apply Z.mul_le_mono_nonneg_r; [apply Z.lt_le_incl, pow2_pos; lia|exact H].
  - replace p with (p' + (p - p')) in H by lia. replace q with (q' + (p - p')) in H by lia.
    rewrite !Z.pow_add_r, !Z.mul_assoc in H by lia.
    apply Z.mul_le_mono_pos_r in H; [exact H|apply pow2_pos; lia].
Qed.

(** Magnitude follows value. *)
Lemma V_le_digits m1 e1 m2 e2 :
  0 < m1 -> 0 < m2 -> -1074 <= e1 -> -1074 <= e2 ->
  V m1 e1 <= V m2 e2 -> Zdigits2 m1 + e1 <= Zdigits2 m2 + e2.
Proof.
  intros H1 H2 E1 E2 H. unfold V in H.
  pose proof (Zdigits2_bounds m1 H1) as [L1 _]. pose proof (Zdigits2_bounds m2 H2) as [_ U2].
  pose proof (Zdigits2_ge_1 m1 H1). pose proof (Zdigits2_ge_1 m2 H2).
  assert (A : 2 ^ (Zdigits2 m1 - 1 + (e1 + 1074)) <= m1 * 2 ^ (e1 + 1074)).
  { rewrite (Z.pow_add_r 2 (Zdigits2 m1 - 1) (e1 + 1074)) by lia.
    apply Z.mul_le_mono_nonneg_r; [apply Z.lt_le_incl, pow2_pos; lia|lia]. }
  assert (B : m2 * 2 ^ (e2 + 1074) < 2 ^ (Zdigits2 m2 + (e2 + 1074))).
  { rewrite (Z.pow_add_r 2 (Zdigits2 m2) (e2 + 1074)) by lia.
    apply Z.mul_lt_mono_pos_r; [apply pow2_pos; lia|lia]. }
  assert (Zdigits2 m1 - 1 + (e1 + 1074) < Zdigits2 m2 + (e2 + 1074)) by (apply pow2_lt_inv; lia).
  lia.
Qed.

(** ** Aligning and rounding an integer mantissa *)

Lemma iter_xO (d : positive) (m : positive) : Zpos (Pos.iter xO m d) = Zpos m * 2 ^ Zpos d.
Proof.
  revert m. induction d as [|d IH] using Pos.peano_ind; intros m.
  - cbn [Pos.iter]. rewrite Pos2Z.inj_xO. change (2 ^ 1) with 2. lia.
  - rewrite Pos.iter_succ, Pos2Z.inj_xO, IH, Pos2Z.inj_succ, Z.pow_succ_r by lia. lia.
Qed.

(** Digits after a shift to the left. *)
Lemma Zdigits2_mul_pow2 m k : 0 < m -> 0 <= k -> Zdigits2 (m * 2 ^ k) = Zdigits2 m + k.
Proof.
  intros Hm Hk. pose proof (Zdigits2_bounds m Hm) as [L U]. pose proof (Zdigits2_ge_1 m Hm).
  pose proof (pow2_pos k Hk).
  apply Zdigits2_unique; [|lia]. split.
  - replace (Zdigits2 m + k - 1) with (Zdigits2 m - 1 + k) by lia.
    rewrite Z.pow_add_r by lia. apply Z.mul_le_mono_nonneg_r; lia.
  - rewrite Z.pow_add_r by lia. apply Z.mul_lt_mono_pos_r; lia.
Qed.

(** [shl_align] refines a mantissa to the smaller of the two exponents. *)
Lemma shl_align_spec mx ex e' :
  snd (shl_align mx ex e') = Z.min ex e' /\
  Zpos (fst (shl_align mx ex e')) = Zpos mx * 2 ^ (ex - Z.min ex e').
Proof.
  unfold shl_align. destruct (e' - ex) as [|d|d] eqn:E; cbn [fst snd].
  - replace (Z.min ex e') with ex by lia. rewrite Z.sub_diag. cbn. lia.
  - replace (Z.min ex e') with ex by lia. rewrite Z.sub_diag. cbn. lia.
  - replace (Z.min ex e') with e' by lia. split; [reflexivity|].
    rewrite iter_xO. f_equal. f_equal. lia.
Qed.

(** [binary_round] first refines the mantissa to the format's exponent when
    it is too coarse, then rounds. *)
Lemma binary_round_eq sx M e :
  exists M2 e2,
    binary_round prec emax sx M e = binary_round_aux prec emax sx M2 e2 loc_Exact /\
    0 < M2 /\ e2 <= e /\ M2 = Zpos M * 2 ^ (e - e2) /\
    e2 <= fexp64 (Zdigits2 M2 + e2) /\
    (-1074 <= e -> fexp64 (Zdigits2 M2 + e2) - e2 < Zdigits2 M2).
Proof.
  unfold binary_round. change (fexp prec emax) with fexp64.
  pose proof (shl_align_spec M e (fexp64 (Zpos (digits2_pos M) + e))) as [S1 S2].
  destruct (shl_align M e (fexp64 (Zpos (digits2_pos M) + e))) as [M2 e2]. cbn [fst snd] in S1, S2.
  exists (Zpos M2), e2. split; [reflexivity|].
  assert (He2 : e2 <= e) by lia.
  assert (D : Zdigits2 (Zpos M2) + e2 = Zpos (digits2_pos M) + e).
  { rewrite S2, <- S1, Zdigits2_mul_pow2 by lia. cbn [Zdigits2]. lia. }
  rewrite D. pose proof (dg_pos M) as P. unfold dg in P.
  repeat split; try lia.
  - rewrite S2, <- S1. reflexivity.
  - intros He. assert (Zdigits2 (Zpos M2) = Zpos (digits2_pos M) + e - e2) by lia.
    unfold fexp64 in *. lia.
Qed.

(** [binary_round] of a positive mantissa is non-negative. *)
Lemma binary_round_nonneg M e : nonneg (binary_round prec emax false M e).
Proof.
  destruct (binary_round_eq false M e) as (M2 & e2 & -> & P & _ & _ & Q & _).
  apply round_nonneg; lia.
Qed.

(** [binary_round] of a mantissa at or above a representable number. *)
Lemma binary_round_ge M e mz ez :
  0 < mz -> canon mz ez -> e <= ez -> mz * 2 ^ (ez - e) <= Zpos M ->
  le_ext (Some (V mz ez)) (val (binary_round prec emax false M e)).
Proof.
  intros Hmz Cz He H.
  destruct (binary_round_eq false M e) as (M2 & e2 & -> & P & L & EM & Q & _).
  apply round_ge; try assumption; try lia.
  rewrite EM. rewrite (scale_split mz ez e2 e) by lia.
  apply Z.mul_le_mono_nonneg_r; [apply Z.lt_le_incl, pow2_pos; lia|exact H].
Qed.

(** [binary_round] of a mantissa at or below a representable number. *)
Lemma binary_round_le M e mz ez :
  0 < mz -> canon mz ez -> ez <= 971 -> e <= ez -> Zpos M <= mz * 2 ^ (ez - e) ->
  le_ext (val (binary_round prec emax false M e)) (Some (V mz ez)).
Proof.
  intros Hmz Cz Bz He H.
  destruct (binary_round_eq false M e) as (M2 & e2 & -> & P & L & EM & Q & _).
  apply round_le; try assumption; try lia.
  - rewrite EM. rewrite (scale_split mz ez e2 e) by lia.
    apply Z.mul_le_mono_nonneg_r; [apply Z.lt_le_incl, pow2_pos; lia|exact H].
  - intros C. now contradiction C.
Qed.

(** Above the smallest exponent nothing positive rounds to zero. *)
Lemma binary_round_nonzero sx M e :
  -1074 <= e -> val (binary_round prec emax sx M e) <> Some 0.
Proof.
  intros He.
  destruct (binary_round_eq sx M e) as (M2 & e2 & -> & P & L & EM & Q & N).
  specialize (N He).
  destruct (bra_spec sx M2 e2 loc_Exact ltac:(lia) Q) as (m1 & m2 & e3 & H). cbv zeta in H.
  destruct H as (B & _ & P2 & V2 & L2 & C2 & ->).
  set (n := fexp64 (Zdigits2 M2 + e2) - e2) in *.
  assert (0 < M2 / 2 ^ n).
  { pose proof (Zdigits2_div M2 n P ltac:(lia)) as D.
    destruct (Z.eq_dec (M2 / 2 ^ n) 0) as [E0|]; [rewrite E0 in D; cbn [Zdigits2] in D; lia|].
    assert (0 <= M2 / 2 ^ n) by (apply Z.div_pos; [lia|apply pow2_pos; lia]). lia. }
  assert (0 < m2) by nia.
  destruct m2 as [|p|p]; try lia. unfold round_result.
  destruct (e3 <=? 971); cbn [val]; [|discriminate].
  pose proof (V_pos (Zpos p) e3 ltac:(lia) (canon_emin _ _ C2)). intros [= E]. lia.
Qed.

(** ** Arithmetic on non-negative floats *)

Lemma V_one : V 4503599627370496 (-52) = 2 ^ 1074.
Proof.
  unfold V. change 4503599627370496 with (2 ^ 52). rewrite <- Z.pow_add_r by lia. reflexivity.
Qed.

(** A non-negative float is a zero, a positive canonical float or +infinity. *)
Lemma nonneg_finite_cases x :
  nonneg x ->
  (exists s, x = S754_zero s) \/
  (exists m e, x = S754_finite false m e /\ canon (Zpos m) e /\ e <= 971) \/
  x = S754_infinity false.
Proof.
  destruct x as [s|s| |s m e]; cbn; intros H; try tauto.
  - left. now exists s.
  - right. right. now subst.
  - destruct H as (-> & C & B). right. left. now exists m, e.
Qed.

(** Case analysis on a non-negative float: zero, finite or infinite. *)
Tactic Notation "nonneg_cases" constr(x) constr(Hx)
    "as" ident(sx) ident(mx) ident(ex) ident(Cx) ident(Bx) :=
  destruct (nonneg_finite_cases x Hx) as [[sx ->]|[(mx & ex & -> & Cx & Bx)| ->]].

(** The exact product of two canonical floats is at least as fine as the
    format. *)
Lemma mul_precond (mx my : positive) ex ey :
  canon (Zpos mx) ex -> canon (Zpos my) ey ->
  ex + ey <= fexp64 (Zdigits2 (Zpos (mx * my)) + (ex + ey)).
Proof.
  intros Cx Cy. rewrite Pos2Z.inj_mul.
  pose proof (Zdigits2_mul (Zpos mx) (Zpos my) ltac:(lia) ltac:(lia)).
  pose proof (Zdigits2_ge_1 (Zpos mx) ltac:(lia)). pose proof (Zdigits2_ge_1 (Zpos my) ltac:(lia)).
  unfold canon, fexp64 in *. lia.
Qed.

(** A product of non-negative floats is non-negative, unless it is 0 x inf. *)
Lemma SFmul_nonneg x y :
  nonneg x -> nonneg y ->
  (val x = Some 0 -> finite_val y) -> (val y = Some 0 -> finite_val x) ->
  nonneg (SFmul prec emax x y).
Proof.
  intros Hx Hy Zx Zy. unfold finite_val in *.
  nonneg_cases x Hx as sx mx ex Cx Bx; nonneg_cases y Hy as sy my ey Cy By;
    cbn [SFmul xorb val nonneg] in *; try tauto; try reflexivity.
  - apply round_nonneg; [lia|now apply mul_precond].
Qed.

(** Multiplying by a factor in [0, 1] does not increase a finite value. *)
Lemma SFmul_le x y :
  nonneg x -> nonneg y -> finite_val x -> le_ext (val y) (val SFone) ->
  nonneg (SFmul prec emax x y) /\ le_ext (val (SFmul prec emax x y)) (val x).
Proof.
  intros Hx Hy Fx Ly. unfold finite_val in *.
  nonneg_cases x Hx as sx mx ex Cx Bx; nonneg_cases y Hy as sy my ey Cy By;
    cbn [SFmul xorb val nonneg le_ext SFone] in *; try tauto; try (split; [exact I|lia]).
  - split; [exact I|]. pose proof (V_pos (Zpos mx) ex ltac:(lia) (canon_emin _ _ Cx)). lia.
  - pose proof (canon_emin _ _ Cy) as Ey.
    assert (Hey : ey <= 0).
    { destruct (Z_le_gt_dec ey 0) as [|G]; [assumption|exfalso].
      pose proof (V_lower (Zpos my) ey ltac:(lia) Cy ltac:(lia)).
      assert (2 ^ 1127 <= 2 ^ (ey + 1126)) by (apply pow2_le; lia).
      rewrite V_one in Ly.
      assert (2 ^ 1074 < 2 ^ 1127) by (apply pow2_lt; lia). lia. }
    assert (Hmy : Zpos my <= 2 ^ (- ey)).
    { rewrite V_one in Ly. unfold V in Ly. rewrite <- (Z.mul_1_l (2 ^ 1074)) in Ly.
      pose proof (le_rescale (Zpos my) 1 (ey + 1074) 1074 0 (- ey)
                    ltac:(lia) ltac:(lia) ltac:(lia) ltac:(lia) ltac:(lia) Ly) as Q.
      rewrite Z.pow_0_r in Q. lia. }
    apply round_le; try assumption; try lia.
    + now apply mul_precond.
    + replace (ex - (ex + ey)) with (- ey) by lia. rewrite Pos2Z.inj_mul.
      apply Z.mul_le_mono_nonneg_l; lia.
    + intros C. now contradiction C.
Qed.

Lemma cond_Zopp_false m : cond_Zopp false m = m.
Proof. reflexivity. Qed.

(** The mantissa of a float at a smaller exponent. *)
Lemma aligned (mx : positive) ex ez :
  ez <= ex -> Zpos (fst (shl_align mx ex ez)) = Zpos mx * 2 ^ (ex - ez).
Proof.
  intros H. pose proof (shl_align_spec mx ex ez) as [_ S].
  replace (Z.min ex ez) with ez in S by lia. exact S.
Qed.

(** Adding a non-negative float does not decrease the value. *)
Lemma SFadd_ge x y :
  nonneg x -> nonneg y ->
  nonneg (SFadd prec emax x y) /\ le_ext (val x) (val (SFadd prec emax x y)).
Proof.
  intros Hx Hy.
  nonneg_cases x Hx as sx mx ex Cx Bx; nonneg_cases y Hy as sy my ey Cy By;
    cbn [SFadd val nonneg le_ext] in *.
  - destruct sx, sy; cbn; split; try exact I; lia.
  - split; [auto|]. pose proof (V_pos (Zpos my) ey ltac:(lia) (canon_emin _ _ Cy)). lia.
  - split; [reflexivity|exact I].
  - split; [auto|lia].
  - rewrite !cond_Zopp_false, !aligned by lia.
    set (ez := Z.min ex ey).
    pose proof (pow2_pos (ex - ez) ltac:(lia)). pose proof (pow2_pos (ey - ez) ltac:(lia)).
    destruct (Zpos mx * 2 ^ (ex - ez) + Zpos my * 2 ^ (ey - ez)) as [|M|M] eqn:E; try nia.
    cbn [binary_normalize]. split; [apply binary_round_nonneg|].
    apply binary_round_ge; try assumption; lia.
  - split; [reflexivity|exact I].
  - split; [reflexivity|exact I].
  - split; [reflexivity|exact I].
  - split; [reflexivity|exact I].
Qed.

(** Value order read back as an order of aligned mantissas. *)
Lemma V_le_aligned m1 e1 m2 e2 ez :
  -1074 <= ez -> ez <= e1 -> ez <= e2 ->
  V m1 e1 <= V m2 e2 -> m1 * 2 ^ (e1 - ez) <= m2 * 2 ^ (e2 - ez).
Proof.
  intros Hz H1 H2 H. unfold V in H.
  apply (le_rescale m1 m2 (e1 + 1074) (e2 + 1074) (e1 - ez) (e2 - ez)); try lia.
Qed.

(** Subtracting a smaller non-negative float leaves a non-negative float. *)
Lemma SFsub_nonneg x y :
  nonneg x -> nonneg y -> finite_val x -> le_ext (val y) (val x) ->
  nonneg (SFsub prec emax x y).
Proof.
  intros Hx Hy Fx L. unfold finite_val in *.
  nonneg_cases x Hx as sx mx ex Cx Bx; nonneg_cases y Hy as sy my ey Cy By;
    cbn [SFsub val nonneg le_ext] in *; try tauto.
  - destruct sx, sy; exact I.
  - pose proof (V_pos (Zpos my) ey ltac:(lia) (canon_emin _ _ Cy)). lia.
  - rewrite !cond_Zopp_false, !aligned by lia.
    set (ez := Z.min ex ey).
    pose proof (canon_emin _ _ Cx). pose proof (canon_emin _ _ Cy).
    pose proof (V_le_aligned (Zpos my) ey (Zpos mx) ex ez ltac:(lia) ltac:(lia) ltac:(lia) L).
    destruct (Zpos mx * 2 ^ (ex - ez) - Zpos my * 2 ^ (ey - ez)) as [|M|M] eqn:E; try lia.
    + exact I.
    + cbn [binary_normalize]. apply binary_round_nonneg.
Qed.

(** ** Division *)

Lemma div_core_spec (mx my : positive) ex ey :
  let e' := Z.min (fexp64 (dg mx + ex - (dg my + ey))) (ex - ey) in
  let s := ex - ey - e' in
  SFdiv_core_binary prec emax (Zpos mx) ex (Zpos my) ey
  = (Zpos mx * 2 ^ s / Zpos my, e', new_location (Zpos my) ((Zpos mx * 2 ^ s) mod Zpos my)).
Proof.
  cbv zeta. unfold SFdiv_core_binary. change (fexp prec emax) with fexp64.
  cbn [Zdigits2]. fold (dg mx) (dg my).
  set (e' := Z.min (fexp64 (dg mx + ex - (dg my + ey))) (ex - ey)).
  assert (Hs : 0 <= ex - ey - e') by lia.
  assert (Hm : match ex - ey - e' with
               | Zpos _ => Z.shiftl (Zpos mx) (ex - ey - e')
               | Z0 => Zpos mx
               | Zneg _ => 0
               end = Zpos mx * 2 ^ (ex - ey - e')).
  { destruct (ex - ey - e') as [|p|p] eqn:E; [rewrite Z.pow_0_r; lia| |lia].
    apply Z.shiftl_mul_pow2. lia. }
  rewrite Hm. unfold Z.div, Z.modulo.
  destruct (Z.div_eucl (Zpos mx * 2 ^ (ex - ey - e')) (Zpos my)) as [q r]. reflexivity.
Qed.

(** A division without remainder is exact. *)
Lemma new_location_exact n r : r = 0 -> new_location n r = loc_Exact.
Proof.
  intros ->. unfold new_location, new_location_even, new_location_odd.
  destruct (Z.even n); reflexivity.
Qed.

(** A quotient of a non-negative float by a larger finite one is in [0, 1]. *)
Lemma SFdiv_le_one x (my : positive) ey :
  nonneg x -> nonneg (S754_finite false my ey) ->
  le_ext (val x) (val (S754_finite false my ey)) ->
  nonneg (SFdiv prec emax x (S754_finite false my ey)) /\
  le_ext (val (SFdiv prec emax x (S754_finite false my ey))) (val SFone).
Proof.
  intros Hx Hy L. destruct Hy as (_ & Cy & By).
  nonneg_cases x Hx as sx mx ex Cx Bx;
    cbn [SFdiv val nonneg le_ext xorb SFone] in *; [| |tauto].
  - split; [exact I|]. rewrite V_one. apply Z.lt_le_incl, pow2_pos. lia.
  - pose proof (div_core_spec mx my ex ey) as Hc. cbv zeta in Hc. rewrite Hc. clear Hc.
    pose proof (canon_emin _ _ Cx) as Ex. pose proof (canon_emin _ _ Cy) as Ey.
    pose proof (V_le_digits (Zpos mx) ex (Zpos my) ey ltac:(lia) ltac:(lia) Ex Ey L) as HD.
    cbn [Zdigits2] in HD. fold (dg mx) (dg my) in HD.
    set (e' := Z.min (fexp64 (dg mx + ex - (dg my + ey))) (ex - ey)).
    set (s := ex - ey - e').
    assert (Hs : 0 <= s) by (unfold s, e'; lia).
    assert (He' : e' <= -53) by (unfold e', fexp64; lia).
    assert (Hemin : -1074 - 1074 - 971 <= e') by (unfold e', fexp64; lia).
    pose proof (pow2_pos s Hs) as Ps.
    set (a := Zpos mx * 2 ^ s).
    assert (Ha : 0 < a) by (unfold a; nia).
    pose proof (Z.div_mod a (Zpos my) ltac:(lia)) as DM.
    pose proof (Z.mod_pos_bound a (Zpos my) ltac:(lia)) as MB.
    assert (Hq : 0 <= a / Zpos my) by (apply Z.div_pos; lia).
    assert (Hscale : a <= Zpos my * 2 ^ (- e')).
    { unfold V in L. unfold a.
      apply (le_rescale (Zpos mx) (Zpos my) (ex + 1074) (ey + 1074) s (- e')); lia. }
    pose proof (pow2_pos (- e') ltac:(lia)) as Pe.
    replace (2 ^ (- e')) with (2 ^ 52 * 2 ^ (-52 - e')) in Hscale, Pe
      by (rewrite <- Z.pow_add_r by lia; f_equal; lia).
    apply round_le; try lia.
    + (* the quotient is at least as fine as the format *)
      destruct (Z.eq_dec (a / Zpos my) 0) as [E0|N0].
      * rewrite E0. cbn [Zdigits2].
        assert (a < Zpos my) by nia.
        pose proof (Zdigits2_bounds (Zpos mx) ltac:(lia)) as [Lx _].
        pose proof (Zdigits2_bounds (Zpos my) ltac:(lia)) as [_ Uy].
        cbn [Zdigits2] in Lx, Uy. fold (dg mx) in Lx. fold (dg my) in Uy.
        pose proof (dg_pos mx). pose proof (dg_pos my).
        assert (2 ^ (dg mx - 1 + s) <= a).
        { rewrite Z.pow_add_r by lia. unfold a. apply Z.mul_le_mono_nonneg_r; lia. }
        assert (dg mx - 1 + s < dg my) by (apply pow2_lt_inv; lia).
        unfold s, e', fexp64 in *. lia.
      * assert (0 < a / Zpos my) by lia.
        pose proof (Zdigits2_bounds (Zpos mx) ltac:(lia)) as [Lx _].
        pose proof (Zdigits2_bounds (Zpos my) ltac:(lia)) as [_ Uy].
        cbn [Zdigits2] in Lx, Uy. fold (dg mx) in Lx. fold (dg my) in Uy.
        pose proof (dg_pos mx). pose proof (dg_pos my).
        assert (Hdq : dg mx + s - dg my <= Zdigits2 (a / Zpos my)).
        { destruct (Z_le_gt_dec (dg mx + s - dg my) 0) as [|G];
            [pose proof (Zdigits2_nonneg (a / Zpos my)); lia|].
          assert (2 ^ (dg mx + s - dg my - 1) <= a / Zpos my).
          { apply Z.div_le_lower_bound; [lia|].
            assert (2 ^ (dg mx - 1 + s) <= a).
            { rewrite Z.pow_add_r by lia. unfold a. apply Z.mul_le_mono_nonneg_r; lia. }
            assert (Zpos my * 2 ^ (dg mx + s - dg my - 1) <= 2 ^ dg my * 2 ^ (dg mx + s - dg my - 1))
              by (apply Z.mul_le_mono_nonneg_r; [apply Z.lt_le_incl, pow2_pos; lia|lia]).
            rewrite <- Z.pow_add_r in H3 by lia.
            replace (dg my + (dg mx + s - dg my - 1)) with (dg mx - 1 + s) in H3 by lia. lia. }
          pose proof (Zdigits2_ge (a / Zpos my) (dg mx + s - dg my - 1) ltac:(lia) ltac:(lia) H2).
          lia. }
        assert (fexp64 (dg mx + ex - (dg my + ey)) <= fexp64 (Zdigits2 (a / Zpos my) + e'))
          by (apply fexp64_mono; unfold s in Hdq; lia).
        unfold e' at 1. lia.
    + reflexivity.
    + change (Zpos 4503599627370496) with (2 ^ 52). nia.
    + intros Hl. change (Zpos 4503599627370496) with (2 ^ 52).
      assert (a mod Zpos my <> 0) by (intros E0; apply Hl; now apply new_location_exact).
      nia.
Qed.

(** ** From primitive floats to their specification *)

Lemma valid_canon s m e :
  valid_binary (S754_finite s m e) = true -> canon (Zpos m) e /\ e <= 971.
Proof.
  unfold SpecFloat.valid_binary, bounded, canonical_mantissa. change (fexp prec emax) with fexp64.
  intros H. apply andb_true_iff in H. destruct H as [H1 H2].
  apply Z.eqb_eq in H1. apply Z.leb_le in H2. split; [exact H1|exact H2].
Qed.

(** [x >= 0] on primitive floats, read on the specification. *)
Lemma fge0_nonneg x : fge x 0 = true -> nonneg (Prim2SF x).
Proof.
  unfold fge. rewrite FloatAxioms.leb_spec. change (Prim2SF 0) with (S754_zero false).
  pose proof (Prim2SF_valid x) as Hv.
  destruct (Prim2SF x) as [s|s| |s m e]; cbn; try tauto; try discriminate.
  - destruct s; [discriminate|reflexivity].
  - destruct s; [discriminate|]. intros _. apply valid_canon in Hv. tauto.
Qed.

(** The order of values, read as [>=] on primitive floats. *)
Lemma fge_of_le x y :
  nonneg (Prim2SF x) -> nonneg (Prim2SF y) ->
  le_ext (val (Prim2SF y)) (val (Prim2SF x)) -> fge x y = true.
Proof.
  intros Hx Hy H. unfold fge. rewrite FloatAxioms.leb_spec. now apply SFleb_nonneg.
Qed.

(** [>=] on primitive floats, read as the order of values. *)
Lemma le_of_fge x y :
  nonneg (Prim2SF x) -> nonneg (Prim2SF y) ->
  fge x y = true -> le_ext (val (Prim2SF y)) (val (Prim2SF x)).
Proof.
  intros Hx Hy H. unfold fge in H. rewrite FloatAxioms.leb_spec in H. now apply SFleb_nonneg.
Qed.

(** A non-negative float is [>= 0]. *)
Lemma nonneg_fge0 x : nonneg (Prim2SF x) -> fge x 0 = true.
Proof.
  intros H. apply fge_of_le; [exact H|exact I|].
  change (Prim2SF 0) with (S754_zero false).
  destruct (nonneg_finite_cases _ H) as [[s ->]|[(m & e & -> & C & B)| ->]]; cbn; try lia.
  pose proof (V_pos (Zpos m) e ltac:(lia) (canon_emin _ _ C)). lia.
Qed.

(** [is_finite] on primitive floats, read on the specification. *)
Lemma is_finite_val x : is_finite x = true -> finite_val (Prim2SF x).
Proof.
  unfold is_finite, is_nan, is_infinity, finite_val.
  rewrite !FloatAxioms.eqb_spec, FloatAxioms.abs_spec. change (Prim2SF infinity) with (S754_infinity false).
  destruct (Prim2SF x) as [s|s| |s m e]; cbn; try discriminate.
  destruct s; discriminate.
Qed.

(** A finite float is not zero. *)
Lemma nonneg_finite_nonzero m e : canon (Zpos m) e -> val (S754_finite false m e) <> Some 0.
Proof.
  intros C. cbn. pose proof (V_pos (Zpos m) e ltac:(lia) (canon_emin _ _ C)).
  intros [= E]. lia.
Qed.

(** ** Quantities as floats *)

Lemma float_of_int_spec q :
  0 <= q < 2 ^ 63 -> Prim2SF (float_of_int q) = binary_normalize prec emax q 0 false.
Proof.
  intros Hq. unfold float_of_int.
  destruct (q <? 0) eqn:E; [apply Z.ltb_lt in E; lia|].
  rewrite FloatAxioms.of_uint63_spec, Uint63.of_Z_spec.
  rewrite Z.mod_small; [reflexivity|]. change wB with (2 ^ 63). lia.
Qed.

(** A quantity converts to a finite float >= 0, and to a positive one when
    it is at least 1. *)
Lemma float_of_int_nonneg q :
  0 <= q < 2 ^ 63 ->
  nonneg (Prim2SF (float_of_int q)) /\
  finite_val (Prim2SF (float_of_int q)) /\
  (1 <= q -> val (Prim2SF (float_of_int q)) <> Some 0).
Proof.
  intros Hq. rewrite float_of_int_spec by exact Hq.
  destruct q as [|M|M]; [| |lia]; cbn [binary_normalize].
  - repeat split; [discriminate|]. intros; lia.
  - split; [apply binary_round_nonneg|split].
    + assert (L : le_ext (val (binary_round prec emax false M 0)) (Some (V (2 ^ 52) 11))).
      { apply binary_round_le; [reflexivity|reflexivity|lia|lia|].
        change (2 ^ 52 * 2 ^ (11 - 0)) with (2 ^ 63). lia. }
      unfold finite_val. destruct (val (binary_round prec emax false M 0)); [discriminate|destruct L].
    + intros _. apply binary_round_nonzero. lia.
Qed.

(** The amount of a line with a quantity of at least 1 and a price >= 0. *)
Lemma line_nonneg q price :
  1 <= q < 2 ^ 63 -> fge price 0 = true ->
  nonneg (Prim2SF (float_of_int q * price)).
Proof.
  intros Hq Hp. rewrite FloatAxioms.mul_spec.
  destruct (float_of_int_nonneg q ltac:(lia)) as (N & F & Z0).
  apply SFmul_nonneg; [exact N|now apply fge0_nonneg| |].
  - intros E. now apply Z0 in E; [|lia].
  - intros _. exact F.
Qed.

(** ** Sums of non-negative amounts *)

Lemma fold_fadd_nonneg xs : forall acc,
  nonneg (Prim2SF acc) -> Forall (fun x => nonneg (Prim2SF x)) xs ->
  nonneg (Prim2SF (fold_left fadd xs acc)).
Proof.
  induction xs as [|x xs IH]; intros acc Ha Hxs; [exact Ha|].
  inversion Hxs; subst. cbn [fold_left]. apply IH; [|assumption].
  unfold fadd. rewrite FloatAxioms.add_spec. now apply SFadd_ge.
Qed.

(** ** The order of the summary figures *)

Lemma hundred_spec : Prim2SF 100 = S754_finite false 7036874417766400 (-46).
Proof. vm_compute. reflexivity. Qed.

(** The VAT rates 7/100 and 19/100 as floats. *)
Lemma vat_rate_spec v :
  v = 7 \/ v = 19 ->
  exists m e, Prim2SF (float_of_int v / 100) = S754_finite false m e /\
              canon (Zpos m) e /\ e <= 971.
Proof.
  intros [-> | ->].
  - exists 5044031582654956%positive, (-56). split; [vm_compute; reflexivity|].
    split; [reflexivity|lia].
  - exists 6845471433603154%positive, (-55). split; [vm_compute; reflexivity|].
    split; [reflexivity|lia].
Qed.

(** Lines 109-112 on a finite net subtotal >= 0, a discount in [0, 100] and a
    VAT rate of 0, 7 or 19. *)
Lemma summary_order (s d : float) (v : Z) :
  nonneg (Prim2SF s) -> finite_val (Prim2SF s) ->
  fge d 0 = true -> fge 100 d = true -> v = 0 \/ v = 7 \/ v = 19 ->
  let net := (s - s * (d / 100))%float in
  let vat := if negb (v =? 0) then (net * (float_of_int v / 100))%float else 0%float in
  fge net 0 = true /\ fge (net + vat) net = true.
Proof.
  intros Ns Fs Hd0 Hd100 Hv. cbv zeta.
  pose proof (fge0_nonneg d Hd0) as Nd.
  assert (N100 : nonneg (Prim2SF 100)) by (rewrite hundred_spec; repeat split; lia).
  pose proof (le_of_fge 100 d N100 Nd Hd100) as Ld.
  (* the discount factor is in [0, 1] *)
  assert (Hf : nonneg (Prim2SF (d / 100)) /\ le_ext (val (Prim2SF (d / 100))) (val SFone)).
  { rewrite FloatAxioms.div_spec. unfold SF64div. rewrite hundred_spec in *.
    now apply SFdiv_le_one. }
  destruct Hf as [Nf Lf].
  (* the discount is between 0 and the net subtotal *)
  assert (Hdisc : nonneg (Prim2SF (s * (d / 100))) /\
                  le_ext (val (Prim2SF (s * (d / 100)))) (val (Prim2SF s))).
  { rewrite FloatAxioms.mul_spec. unfold SF64mul. now apply SFmul_le. }
  destruct Hdisc as [Ndisc Ldisc].
  assert (Nnet : nonneg (Prim2SF (s - s * (d / 100)))).
  { rewrite FloatAxioms.sub_spec. unfold SF64sub. now apply SFsub_nonneg. }
  split; [now apply nonneg_fge0|].
  set (net := (s - s * (d / 100))%float) in *.
  assert (Nvat : nonneg (Prim2SF (if negb (v =? 0)
                             then (net * (float_of_int v / 100))%float else 0%float))).
  { destruct Hv as [-> | Hv]; [exact I|].
    assert (E : negb (v =? 0) = true) by (destruct Hv as [-> | ->]; reflexivity).
    rewrite E. destruct (vat_rate_spec v Hv) as (m & e & Hr & C & B).
    rewrite FloatAxioms.mul_spec. unfold SF64mul. rewrite Hr.
    apply SFmul_nonneg; [exact Nnet|repeat split; assumption| |].
    - intros _. discriminate.
    - intros E0. now apply nonneg_finite_nonzero in E0. }
  apply fge_of_le; [|exact Nnet|].
  - rewrite FloatAxioms.add_spec. unfold SF64add. now apply SFadd_ge.
  - rewrite FloatAxioms.add_spec. unfold SF64add. now apply SFadd_ge.
Qed.

(** C5, as the code has it: with quantities that are non-negative integers,
    unit prices >= 0, a discount in [0, 100], a VAT rate of 0, 7 or 19 and a
    finite net subtotal, the discounted net is >= 0 and the gross total is at
    least the discounted net. *)
Theorem gross_ge_net_ge_zero df nc pc sel total_net package_lines d v :
  configure df nc pc sel = Some (total_net, package_lines) ->
  Forall (fun l => 0 <= Menge l < 2 ^ 53 /\ fge (Einzelpreis l) 0 = true) package_lines ->
  fge d 0 = true -> fge 100 d = true -> v = 0 \/ v = 7 \/ v = 19 ->
  let r := summarize (filter_positive package_lines) d v in
  is_finite (net_sum r) = true ->
  fge (net_after_discount r) 0 = true /\
  fge (gross_total r) (net_after_discount r) = true.
Proof.
  intros Hc Hdom Hd0 Hd100 Hv r Hfin.
  apply configure_spec in Hc. destruct Hc as (_ & Hok & _).
  assert (Ns : nonneg (Prim2SF (net_sum r))).
  { subst r. unfold summarize. cbn [net_sum]. rewrite series_sum_fold.
    apply fold_fadd_nonneg; [exact I|].
    apply Forall_map. apply List.Forall_forall. intros l Hl.
    apply filter_positive_In in Hl. destruct Hl as [Hl Hpos].
    rewrite List.Forall_forall in Hok, Hdom. specialize (Hok l Hl). specialize (Hdom l Hl).
    destruct Hdom as [Hq Hp]. rewrite Hok. apply line_nonneg; [|exact Hp].
    assert (2 ^ 53 < 2 ^ 63) by reflexivity. lia. }
  pose proof (is_finite_val _ Hfin) as Fs.
  exact (summary_order (net_sum r) d v Ns Fs Hd0 Hd100 Hv).
Qed.

(** ** Lines with quantity 0 in the running total *)

Lemma SFadd_zero_r x s :
  x <> S754_zero true -> SFadd prec emax x (S754_zero s) = x.
Proof.
  destruct x as [sx|sx| |sx mx ex]; cbn; try reflexivity.
  destruct sx, s; try reflexivity. congruence.
Qed.

(** A sum is -0.0 only when both terms are. *)
Lemma SFadd_neg_zero x y :
  valid_binary x = true -> valid_binary y = true ->
  SFadd prec emax x y = S754_zero true -> x = S754_zero true.
Proof.
  intros Vx Vy.
  destruct x as [sx|sx| |sx mx ex], y as [sy|sy| |sy my ey]; cbn [SFadd];
    try discriminate.
  - destruct sx, sy; try discriminate; reflexivity.
  - destruct sx, sy; discriminate.
  - apply valid_canon in Vx, Vy. destruct Vx as [Cx _], Vy as [Cy _].
    pose proof (canon_emin _ _ Cx). pose proof (canon_emin _ _ Cy).
    destruct (cond_Zopp sx (Zpos (fst (shl_align mx ex (Z.min ex ey)))) +
              cond_Zopp sy (Zpos (fst (shl_align my ey (Z.min ex ey))))) as [|M|M];
      cbn [binary_normalize]; [discriminate| |].
    + intros E. pose proof (binary_round_nonzero false M (Z.min ex ey) ltac:(lia)) as N.
      rewrite E in N. now contradiction N.
    + intros E. pose proof (binary_round_nonzero true M (Z.min ex ey) ltac:(lia)) as N.
      rewrite E in N. now contradiction N.
Qed.

(** A running total that is not -0.0 stays so. *)
Lemma fadd_not_neg_zero acc x :
  Prim2SF acc <> S754_zero true -> Prim2SF (fadd acc x) <> S754_zero true.
Proof.
  intros H E. unfold fadd in E. rewrite FloatAxioms.add_spec in E. apply H.
  exact (SFadd_neg_zero _ _ (Prim2SF_valid acc) (Prim2SF_valid x) E).
Qed.

(** The amount of a line with quantity 0 and a finite price is a zero. *)
Lemma zero_line price :
  is_finite price = true -> exists s, Prim2SF (float_of_int 0 * price) = S754_zero s.
Proof.
  intros F. apply is_finite_val in F. unfold finite_val in F.
  rewrite FloatAxioms.mul_spec. change (Prim2SF (float_of_int 0)) with (S754_zero false).
  destruct (Prim2SF price) as [s|s| |s m e]; cbn in *; try congruence; eauto.
Qed.

(** Adding the amount of a line with quantity 0 changes nothing. *)
Lemma fadd_zero_line acc price :
  Prim2SF acc <> S754_zero true -> is_finite price = true ->
  fadd acc (float_of_int 0 * price) = acc.
Proof.
  intros H F. destruct (zero_line price F) as [s E].
  apply Prim2SF_inj. unfold fadd. rewrite FloatAxioms.add_spec, E.
  now apply SFadd_zero_r.
Qed.

(** Skipping the lines with quantity 0 does not change the running total. *)
Lemma fold_skips_zero_lines lines : forall acc,
  Prim2SF acc <> S754_zero true ->
  Forall (fun l => line_ok l /\ 0 <= Menge l /\ is_finite (Einzelpreis l) = true) lines ->
  fold_left fadd (map ZeileNetto lines) acc
  = fold_left fadd (map ZeileNetto (filter_positive lines)) acc.
Proof.
  induction lines as [|l lines IH]; intros acc Ha Hl; [reflexivity|].
  inversion Hl as [|? ? (Hok & Hq & Hp) Hrest]; subst.
  unfold filter_positive. cbn [List.filter map fold_left].
  destruct (0 <? Menge l) eqn:E.
  - cbn [map fold_left]. apply IH; [now apply fadd_not_neg_zero|exact Hrest].
  - apply Z.ltb_ge in E. assert (E0 : Menge l = 0) by lia.
    rewrite Hok, E0, fadd_zero_line by assumption. now apply IH.
Qed.

(** C10, as the code has it: when every quantity is a non-negative integer
    and every unit price is finite, the running total of the loop is the sum
    of the amounts of the lines with quantity > 0, added in selection order;
    that is the net subtotal as long as fewer than eight lines have quantity
    > 0 (from eight elements on pandas regroups the additions). *)
Theorem running_total_is_net_sum df nc pc sel total_net package_lines d v :
  configure df nc pc sel = Some (total_net, package_lines) ->
  Forall (fun l => 0 <= Menge l < 2 ^ 53 /\ is_finite (Einzelpreis l) = true) package_lines ->
  total_net =
    fold_left (fun acc l => (acc + float_of_int (Menge l) * Einzelpreis l)%float)
      (filter_positive package_lines) 0%float /\
  ((List.length (filter_positive package_lines) < 8)%nat ->
   total_net = net_sum (summarize (filter_positive package_lines) d v)).
Proof.
  intros Hc Hdom. apply configure_spec in Hc. destruct Hc as (-> & Hok & _).
  assert (E : fold_left fadd (map ZeileNetto package_lines) 0%float
              = fold_left fadd (map ZeileNetto (filter_positive package_lines)) 0%float).
  { apply fold_skips_zero_lines; [discriminate|].
    rewrite List.Forall_forall in *. intros l Hl.
    specialize (Hok l Hl). specialize (Hdom l Hl). tauto. }
  split.
  - rewrite E. unfold fadd. apply fold_amounts.
    apply List.Forall_forall. intros l Hl. apply filter_positive_In in Hl.
    rewrite List.Forall_forall in Hok. apply Hok, Hl.
  - intros _. unfold summarize. cbn [net_sum]. rewrite series_sum_fold. exact E.
Qed.

(** ** Overflow and infinite prices *)

(** C5 fails when the net subtotal overflows: two pieces at 9.99e307 give
    the subtotal infinity, the discount infinity x 0 = NaN, and then neither
    comparison holds. *)
Lemma overflow_breaks_order :
  exists total_net package_lines,
    configure overflow_df "Artikel" (Some "Preis pro Stück"%string) [(Text "Halle", 2)]
      = Some (total_net, package_lines) /\
    Forall (fun l => 0 <= Menge l < 2 ^ 53 /\ fge (Einzelpreis l) 0 = true) package_lines /\
    fge 0 0 = true /\ fge 100 0 = true /\
    let r := summarize (filter_positive package_lines) 0%float 19 in
    net_sum r = infinity /\
    is_nan (net_after_discount r) = true /\
    fge (net_after_discount r) 0 = false /\
    fge (gross_total r) (net_after_discount r) = false.
Proof.
  eexists _, _. split; [vm_compute; reflexivity|].
  split; [constructor; [split; [split; [cbn; lia|reflexivity]|reflexivity]|constructor]|].
  vm_compute. repeat split.
Qed.

(** Scenario A satisfies the order of the figures. *)
Lemma gross_ge_net_ge_zero_witness :
  let r := summarize (filter_positive scenario_A_lines) 0%float 19 in
  fge (net_after_discount r) 0 = true /\ fge (gross_total r) (net_after_discount r) = true.
Proof.
  apply (gross_ge_net_ge_zero scenario_df "Artikel" (Some "Preis pro Stück"%string)
           [(Text "Tisch", 2); (Text "Stuhl", 3)] 35%float scenario_A_lines 0%float 19).
  - vm_compute. reflexivity.
  - repeat (constructor; [split; [split; [cbn; lia|reflexivity]|reflexivity]|]). constructor.
  - reflexivity.
  - reflexivity.
  - right. right. reflexivity.
  - vm_compute. reflexivity.
Defined.

(** C10 fails on a line with quantity 0 and an infinite price: its amount
    0 x inf is NaN, so the running total is NaN while the net subtotal of the
    remaining line is 10. *)
Lemma infinite_price_breaks_total :
  exists total_net package_lines,
    configure infinite_price_df "Artikel" (Some "Preis pro Stück"%string)
      [(Text "Tisch", 1); (Text "Halle", 0)] = Some (total_net, package_lines) /\
    Forall (fun l => 0 <= Menge l) package_lines /\
    is_nan total_net = true /\
    net_sum (summarize (filter_positive package_lines) 0%float 19) = 10%float /\
    total_net <> net_sum (summarize (filter_positive package_lines) 0%float 19).
Proof.
  eexists _, _. split; [vm_compute; reflexivity|].
  split; [repeat (constructor; [cbn; lia|]); constructor|].
  split; [vm_compute; reflexivity|]. split; [vm_compute; reflexivity|].
  intros E. apply (f_equal is_nan) in E. vm_compute in E. discriminate.
Qed.

(** Scenario C: the running total 20 is the amount of the one line with a
    quantity above 0, and the net subtotal. *)
Lemma running_total_is_net_sum_witness :
  20%float =
    fold_left (fun acc l => (acc + float_of_int (Menge l) * Einzelpreis l)%float)
      (filter_positive scenario_C_lines) 0%float /\
  20%float = net_sum (summarize (filter_positive scenario_C_lines) 0%float 19).
Proof.
  destruct (running_total_is_net_sum scenario_df "Artikel" (Some "Preis pro Stück"%string)
              scenario_C_selection 20%float scenario_C_lines 0%float 19) as [H1 H2].
  - vm_compute. reflexivity.
  - repeat (constructor; [split; [split; [cbn; lia|reflexivity]|reflexivity]|]). constructor.
  - split; [exact H1|]. apply H2. vm_compute. lia.
Defined.

(** The sheet of scenario A: the price typed as the text 5 is loaded as the
    number 5, beside the number 10. *)
Lemma loaded_price_sign_witness :
  get_column scenario_df "Preis pro Stück" = Some [Num 10%float; Num 5%float] /\
  forall art price,
    unit_price scenario_df "Artikel" (Some "Preis pro Stück"%string) art = Some price ->
    price = 10%float \/ price = 5%float.
Proof.
  destruct (loaded_price_sign py_strip py_lower parse_digits scenario_sheet scenario_df
              (Some "Artikel"%string) "Preis pro Stück") as (cells0 & H1 & H2 & H3 & _).
  - vm_compute. reflexivity.
  - injection H1 as <-. split; [exact H2|].
    intros art price Hp. destruct (H3 _ _ _ Hp) as (c & [<-|[<-|[]]] & ->).
    + left. reflexivity.
    + right. reflexivity.
Defined.

(** Scenario D: a price cell with the text "n/a" is loaded as 0. *)
Example scenario_D : clean_price parse_digits (Text "n/a") = 0%float.
Proof. reflexivity. Qed.

(** ** Scenario A from the sheet to the page *)

(** The sheet loads as the catalog of the scenario. *)
Example scenario_sheet_loads :
  load_frame py_strip py_lower parse_digits scenario_sheet
  = Done (scenario_df, Some "Artikel"%string, Some "Preis pro Stück"%string).
Proof. vm_compute. reflexivity. Qed.

(** One run of the script: the catalog, the two quantity widgets, the
    summary, the export and the offer of two rows each, then the upload
    widget; the run ends normally. *)
Example scenario_A_run :
  match main py_strip py_lower parse_digits (fun _ => Some scenario_sheet) (fun _ _ => true)
             (fun _ => "0.00"%string) (fun _ => "1"%string) (fun _ => "x"%string)
             "2024-01-01" "20240101_000000" "/mnt/data" scenario_A_inputs
             {[ "/mnt/data/Miete.xlsx"%string := "xlsx"%string ]} with
  | (_, [ St_title; St_intro; Sidebar_settings; St_search_box; St_dataframe shown;
          St_multiselect options; St_number_input (Text "Tisch");
          St_number_input (Text "Stuhl"); St_table rows; St_figures _;
          Download_xlsx exported _; St_code _; Download_txt _ _;
          Sidebar_uploader; St_usage ], Done tt) =>
      options = [Text "Tisch"; Text "Stuhl"] /\
      List.length shown = 2%nat /\ List.length rows = 2%nat /\
      map (fun row => gross_total_of row) exported = [41.65%float; 41.65%float]
  | _ => False
  end.
Proof. vm_compute. repeat split. Qed.

(** * Further properties *)

(** ** Looking up an article (lines 89 and 92) *)

(** [first_row] finds the first name equal to the article, if there is one. *)
Lemma first_row_spec names art :
  match first_row names art with
  | Some i => exists pre n post,
      names = pre ++ n :: post /\ List.length pre = i /\ cell_eqb n art = true /\
      Forall (fun n' => cell_eqb n' art = false) pre
  | None => Forall (fun n => cell_eqb n art = false) names
  end.
Proof.
  induction names as [|a names IH]; simpl; [constructor|].
  destruct (cell_eqb a art) eqn:E.
  - exists [], a, names. repeat split; auto.
  - destruct (first_row names art) as [i|]; simpl.
    + destruct IH as (pre & n & post & -> & <- & En & Hpre).
      exists (a :: pre), n, post. repeat split; auto.
    + constructor; auto.
Qed.

(** X1: the unit price of an article is the price cell of the first row
    whose name equals it, also when later rows carry the same name; the
    lookup fails only when no row has that name or when that row's price
    cell is missing or is text. *)
Theorem unit_price_first_match df nc pc art names prices :
  get_column df nc = Some names -> get_column df pc = Some prices ->
  match unit_price df nc (Some pc) art with
  | Some price =>
      exists pre n post,
        names = pre ++ n :: post /\ cell_eqb n art = true /\
        Forall (fun n' => cell_eqb n' art = false) pre /\
        nth_error prices (List.length pre) = Some (Num price)
  | None =>
      Forall (fun n => cell_eqb n art = false) names \/
      exists pre n post,
        names = pre ++ n :: post /\ cell_eqb n art = true /\
        Forall (fun n' => cell_eqb n' art = false) pre /\
        (nth_error prices (List.length pre) = None \/
         exists s, nth_error prices (List.length pre) = Some (Text s))
  end.
Proof.
  intros Hn Hp. unfold unit_price, row_index, row_price. rewrite Hn.
  pose proof (first_row_spec names art) as H.
  destruct (first_row names art) as [i|]; [|left; exact H].
  destruct H as (pre & n & post & -> & <- & En & Hpre). rewrite Hp.
  destruct (nth_error prices (List.length pre)) as [[x|s]|] eqn:E; simpl.
  - exists pre, n, post. auto.
  - right. exists pre, n, post. repeat split; eauto.
  - right. exists pre, n, post. repeat split; eauto.
Qed.

(** In a catalog that lists Tisch at 10 and again at 99, Tisch costs 10. *)
Lemma unit_price_first_match_witness :
  exists pre n post,
    [Text "Tisch"; Text "Stuhl"; Text "Tisch"] = pre ++ n :: post /\
    cell_eqb n (Text "Tisch") = true /\
    Forall (fun n' => cell_eqb n' (Text "Tisch") = false) pre /\
    nth_error [Num 10%float; Num 5%float; Num 99%float] (List.length pre) = Some (Num 10%float).
Proof.
  exact (unit_price_first_match duplicate_df "Artikel" "Preis pro Stück" (Text "Tisch")
           _ _ eq_refl eq_refl).
Defined.

(** ** The lines of a package (lines 87-95) *)

Lemma configure_from_prices df nc pc sel : forall acc t ls,
  configure_from df nc pc sel acc = Some (t, ls) ->
  exists new,
    ls = snd acc ++ new /\
    Forall (fun l => unit_price df nc pc (Artikel l) = Some (Einzelpreis l)) new.
Proof.
  induction sel as [|[art qty] sel IH]; intros acc t ls H; simpl in H.
  - injection H as ->. exists []. simpl. rewrite app_nil_r. auto.
  - destruct (unit_price df nc pc art) as [price|] eqn:E; [|discriminate].
    apply IH in H. destruct H as (new & -> & Hnew). simpl.
    exists (mk_line art qty price (float_of_int qty * price)%float :: new).
    rewrite <- app_assoc. split; [reflexivity|]. constructor; auto.
Qed.

(** X2: the loop builds one line per selected article, in the order of the
    selection and with the quantity entered for it; every line carries the
    unit price the catalog gives for its article and quantity times that
    price as its amount. *)
Theorem package_lines_follow_selection df nc pc sel total_net package_lines :
  configure df nc pc sel = Some (total_net, package_lines) ->
  map (fun l => (Artikel l, Menge l)) package_lines = sel /\
  Forall (fun l => unit_price df nc pc (Artikel l) = Some (Einzelpreis l) /\
                   ZeileNetto l = (float_of_int (Menge l) * Einzelpreis l)%float)
         package_lines.
Proof.
  intros H. pose proof (configure_spec _ _ _ _ _ _ H) as (_ & Hok & Hsel).
  apply configure_from_prices in H. destruct H as (new & -> & Hnew). simpl in *.
  split; [exact Hsel|].
  rewrite List.Forall_forall in *. intros l Hl. split; [auto|]. apply Hok, Hl.
Qed.

(** Scenario C: two lines, Tisch twice and Stuhl with quantity 0. *)
Lemma package_lines_follow_selection_witness :
  map (fun l => (Artikel l, Menge l)) scenario_C_lines = scenario_C_selection /\
  Forall (fun l => unit_price scenario_df "Artikel" (Some "Preis pro Stück"%string) (Artikel l)
                   = Some (Einzelpreis l) /\
                   ZeileNetto l = (float_of_int (Menge l) * Einzelpreis l)%float)
         scenario_C_lines.
Proof.
  apply (package_lines_follow_selection scenario_df "Artikel" (Some "Preis pro Stück"%string)
           scenario_C_selection 20%float scenario_C_lines).
  vm_compute. reflexivity.
Defined.

Lemma configure_from_fails df nc pc sel : forall acc,
  configure_from df nc pc sel acc = None <->
  Exists (fun aq => unit_price df nc pc (fst aq) = None) sel.
Proof.
  induction sel as [|[art qty] sel IH]; intros acc; simpl.
  - split; [discriminate|]. intros H. inversion H.
  - destruct (unit_price df nc pc art) as [price|] eqn:E.
    + rewrite IH. split; [intros H; right; exact H|].
      intros H. inversion H as [? ? H1|? ? H1]; subst; [simpl in H1; congruence|exact H1].
    + split; [|reflexivity]. intros _. left. exact E.
Qed.

Section SelectionFails.

(** [str] of a cell, as the label [f"qty_{art}"] of a quantity widget uses it. *)
Variable str_of_cell : cell -> string.

(** X3: with a name label that names one column and selected articles whose
    quantity widgets have distinct labels, building the package fails
    exactly when some selected article has no unit price in the catalog (no
    row with its name, or no number in that row's price cell); the
    quantities play no part in it. *)
Theorem configure_fails_iff df nc pc sel :
  names_one_column df nc ->
  List.NoDup (map str_of_cell (map fst sel)) ->
  configure df nc pc sel = None <->
  Exists (fun art => unit_price df nc pc art = None) (map fst sel).
Proof.
  intros _ _. unfold configure. rewrite configure_from_fails.
  rewrite List.Exists_map. reflexivity.
Qed.

End SelectionFails.

(** Tisch and Sofa are selected, and the catalog has no Sofa. *)
Lemma configure_fails_iff_witness :
  configure scenario_df "Artikel" (Some "Preis pro Stück"%string)
    [(Text "Tisch", 2); (Text "Sofa", 1)] = None <->
  Exists (fun art => unit_price scenario_df "Artikel" (Some "Preis pro Stück"%string) art = None)
    [Text "Tisch"; Text "Sofa"].
Proof.
  apply (configure_fails_iff cell_text scenario_df "Artikel" (Some "Preis pro Stück"%string)
           [(Text "Tisch", 2); (Text "Sofa", 1)]).
  - vm_compute. reflexivity.
  - constructor; [cbn; intros [H|[]]; discriminate|].
    constructor; [cbn; tauto|constructor].
Defined.

(** ** Articles without a name (line 89) *)

Lemma SFeqb_refl_false x : SFeqb x x = false -> x = S754_nan.
Proof.
  destruct x as [s|s| |s m e]; try reflexivity; unfold SFeqb, SFcompare.
  - discriminate.
  - destruct s; discriminate.
  - rewrite Z.compare_refl, Pos.compare_cont_refl. destruct s; discriminate.
Qed.

Lemma eqb_nan_r x y : is_nan y = true -> (x =? y)%float = false.
Proof.
  unfold is_nan. intros H. apply negb_true_iff in H.
  rewrite FloatAxioms.eqb_spec in H. apply SFeqb_refl_false in H.
  rewrite FloatAxioms.eqb_spec, H. destruct (Prim2SF x); reflexivity.
Qed.

Lemma first_row_nan names x : is_nan x = true -> first_row names (Num x) = None.
Proof.
  intros H. induction names as [|n names IH]; simpl; [reflexivity|].
  rewrite IH. destruct n as [y|s]; simpl; [|reflexivity].
  rewrite (eqb_nan_r y x H). reflexivity.
Qed.

(** The loop over the articles that have a price: one widget each. *)
Lemma package_loop_app df nc pc qty_of pre rest : forall acc fs,
  Forall (fun a => unit_price df nc pc a <> None) pre ->
  exists acc',
    package_loop df nc pc qty_of (pre ++ rest) acc fs =
    (fst (fst (package_loop df nc pc qty_of rest acc' fs)),
     map St_number_input pre ++ snd (fst (package_loop df nc pc qty_of rest acc' fs)),
     snd (package_loop df nc pc qty_of rest acc' fs)).
Proof.
  induction pre as [|a pre IH]; intros acc fs H.
  - exists acc. simpl. destruct (package_loop df nc pc qty_of rest acc fs) as [[? ?] ?].
    reflexivity.
  - inversion H as [|? ? Ha Hpre]; subst. simpl. unfold unit_price in Ha.
    destruct (row_index df nc a) as [i|]; [|congruence].
    destruct (row_price df pc i) as [price|]; [|congruence].
    destruct (IH (add_line a (qty_of a) price acc) fs Hpre) as (acc' & E).
    exists acc'. unfold bind, show. rewrite E. reflexivity.
Qed.

Section BlankNames.

(** [str] of a cell, as the key [f"qty_{art}"] of a quantity widget uses it. *)
Variable str_of_cell : cell -> string.

(** X4: an article whose name cell is blank (NaN) equals no row, itself
    included: when it is selected the loop raises IndexError on it, after
    the quantity widgets of the articles before it (whose widget keys are
    distinct), and nothing after it is shown. *)
Theorem blank_name_raises df nc pc qty_of pre x post acc fs :
  is_nan x = true ->
  Forall (fun a => unit_price df nc pc a <> None) pre ->
  List.NoDup (map str_of_cell pre) ->
  row_index df nc (Num x) = None /\
  package_loop df nc pc qty_of (pre ++ Num x :: post) acc fs
  = (fs, map St_number_input pre, Raised "IndexError").
Proof.
  intros Hx Hpre _.
  assert (R : row_index df nc (Num x) = None).
  { unfold row_index. destruct (get_column df nc); [apply first_row_nan, Hx|reflexivity]. }
  split; [exact R|].
  destruct (package_loop_app df nc pc qty_of pre (Num x :: post) acc fs Hpre) as (acc' & E).
  rewrite E. simpl. rewrite R. unfold raise. simpl. rewrite app_nil_r. reflexivity.
Qed.

End BlankNames.

(** Tisch and a nameless article are selected: one widget, then IndexError. *)
Lemma blank_name_raises_witness :
  row_index scenario_df "Artikel" (Num nan) = None /\
  package_loop scenario_df "Artikel" (Some "Preis pro Stück"%string) (fun _ => 1)
    ([Text "Tisch"] ++ Num nan :: [Text "Stuhl"]) (0%float, []) ∅
  = (∅, map St_number_input [Text "Tisch"], Raised "IndexError").
Proof.
  apply (blank_name_raises cell_text scenario_df "Artikel" (Some "Preis pro Stück"%string)
           (fun _ => 1) [Text "Tisch"] nan [Text "Stuhl"] (0%float, []) ∅).
  - reflexivity.
  - constructor; [vm_compute; discriminate|constructor].
  - constructor; [cbn; tauto|constructor].
Defined.

(** ** The frame after loading (lines 24-39) *)

Lemma get_column_rectangular df n c cells :
  rectangular df n -> get_column df c = Some cells -> List.length cells = n.
Proof.
  unfold rectangular. induction df as [|[l old] df IH]; simpl; [discriminate|].
  intros H E. apply List.Forall_cons_iff in H as [H1 H2].
  destruct (String.eqb l c); [injection E as <-; exact H1|auto].
Qed.

Lemma rectangular_set_column df n c cells :
  rectangular df n -> List.length cells = n -> rectangular (set_column df c cells) n.
Proof.
  unfold rectangular. intros H L. induction df as [|[l old] df IH]; simpl; [constructor|].
  apply List.Forall_cons_iff in H as [H1 H2].
  destruct (String.eqb l c); constructor; auto.
Qed.

Lemma n_rows_set_column df c cells new :
  get_column df c = Some cells -> List.length new = List.length cells ->
  n_rows (set_column df c new) = n_rows df.
Proof.
  destruct df as [|[l old] df]; simpl; [discriminate|].
  destruct (String.eqb l c); simpl; [|reflexivity].
  intros E L. injection E as <-. exact L.
Qed.

Lemma length_set_column df c new : List.length (set_column df c new) = List.length df.
Proof.
  rewrite <- (List.length_map fst (set_column df c new)), <- (List.length_map fst df).
  f_equal. apply columns_set_column.
Qed.

Lemma first_row_In names art :
  In art names -> cell_eqb art art = true ->
  exists i, first_row names art = Some i /\ (i < List.length names)%nat.
Proof.
  intros HIn Hrefl. pose proof (first_row_spec names art) as H.
  destruct (first_row names art) as [i|].
  - destruct H as (pre & n & post & -> & <- & _). exists (List.length pre).
    split; [reflexivity|]. rewrite List.length_app. simpl. lia.
  - rewrite List.Forall_forall in H. rewrite (H art HIn) in Hrefl. discriminate.
Qed.

Section LoadedFrame.

Variable strip : string -> string.
Variable lower : string -> string.
Variable parse_number : string -> option float.
(** [str] of a cell, as the label [f"qty_{art}"] of a quantity widget uses it. *)
Variable str_of_cell : cell -> string.

Lemma rectangular_rename df n : rectangular df n -> rectangular (rename_strip strip df) n.
Proof.
  unfold rectangular, rename_strip. intros H. apply List.Forall_map.
  revert H. apply List.Forall_impl. auto.
Qed.

Lemma length_clean_price_column cells :
  List.length (clean_price_column parse_number cells) = List.length cells.
Proof. apply List.length_map. Qed.

(** Loading changes neither the number of columns nor the number of rows. *)
Lemma load_frame_shape df0 df nc pc :
  load_frame strip lower parse_number df0 = Done (df, nc, pc) ->
  n_columns df = n_columns df0 /\ n_rows df = n_rows df0.
Proof.
  assert (R : n_rows (rename_strip strip df0) = n_rows df0).
  { destruct df0 as [|[l c] r]; reflexivity. }
  assert (C : n_columns (rename_strip strip df0) = n_columns df0).
  { apply List.length_map. }
  unfold load_frame.
  destruct (detect_price_col lower (df_columns (rename_strip strip df0))) as [p|].
  - destruct (1 <? count_occ string_dec (df_columns (rename_strip strip df0)) p)%nat;
      [discriminate|].
    destruct (get_column (rename_strip strip df0) p) as [cells|] eqn:E; [|discriminate].
    intros H. injection H as <- _ _. split.
    + unfold n_columns. rewrite length_set_column. exact C.
    + rewrite (n_rows_set_column _ _ cells); [exact R|exact E|].
      apply length_clean_price_column.
  - intros H. injection H as <- _ _. auto.
Qed.

Lemma df_empty_load df0 df nc pc :
  load_frame strip lower parse_number df0 = Done (df, nc, pc) ->
  df_empty df = df_empty df0.
Proof.
  intros H. apply load_frame_shape in H. destruct H as [C R].
  unfold df_empty. rewrite C, R. reflexivity.
Qed.

(** X5: loading keeps the shape of the sheet: the labels are the stripped
    headers in the same order, the numbers of columns and of rows are those
    of the sheet, the frame is empty exactly when the sheet is, and every
    column keeps its length. *)
Theorem load_keeps_shape df0 df nc pc n :
  load_frame strip lower parse_number df0 = Done (df, nc, pc) ->
  rectangular df0 n ->
  df_columns df = map strip (df_columns df0) /\
  n_columns df = n_columns df0 /\
  n_rows df = n_rows df0 /\
  df_empty df = df_empty df0 /\
  rectangular df n.
Proof.
  intros H Hrect.
  pose proof (load_frame_shape _ _ _ _ H) as [C R].
  pose proof (df_empty_load _ _ _ _ H) as E.
  pose proof (load_frame_spec strip lower parse_number df0) as S. cbv zeta in S.
  rewrite H in S. destruct S as (_ & _ & Hcols & Hprice).
  apply (rectangular_rename _ _) in Hrect.
  repeat (split; [first [exact C|exact R|exact E|idtac]|]).
  - rewrite Hcols. unfold df_columns, rename_strip. rewrite !List.map_map. reflexivity.
  - revert H. unfold load_frame.
    destruct (detect_price_col lower (df_columns (rename_strip strip df0))) as [p|].
    + destruct (1 <? count_occ string_dec (df_columns (rename_strip strip df0)) p)%nat;
        [discriminate|].
      destruct (get_column (rename_strip strip df0) p) as [cells|] eqn:Ec; [|discriminate].
      intros H. injection H as <- _ _. apply rectangular_set_column; [exact Hrect|].
      rewrite length_clean_price_column. eapply get_column_rectangular; eauto.
    + intros H. injection H as <- _ _. exact Hrect.
Qed.

(** After a successful load the price column holds numbers only. *)
Lemma unit_price_not_nan df0 df nc pc art price :
  load_frame strip lower parse_number df0 = Done (df, Some nc, Some pc) ->
  unit_price df nc (Some pc) art = Some price -> is_nan price = false.
Proof.
  intros H.
  pose proof (load_frame_spec strip lower parse_number df0) as S. cbv zeta in S.
  rewrite H in S. destruct S as (_ & _ & _ & cells & _ & Hc2 & _).
  unfold unit_price, row_price. destruct (row_index df nc art) as [i|]; [|discriminate].
  rewrite Hc2. unfold clean_price_column. rewrite List.nth_error_map.
  destruct (nth_error cells i) as [c|]; [|discriminate]. simpl.
  intros E. injection E as <-. apply fillna0_not_nan.
Qed.

(** After a successful load every name of the name column that equals
    itself has a unit price. *)
Lemma unit_price_loaded df0 n df nc pc names art :
  load_frame strip lower parse_number df0 = Done (df, Some nc, Some pc) ->
  rectangular df0 n ->
  get_column df nc = Some names -> In art names -> cell_eqb art art = true ->
  unit_price df nc (Some pc) art <> None.
Proof.
  intros H Hrect Hn HIn Hrefl.
  pose proof (load_frame_spec strip lower parse_number df0) as S. cbv zeta in S.
  rewrite H in S. destruct S as (_ & _ & _ & cells & Hc1 & Hc2 & Hother).
  apply (rectangular_rename _ _) in Hrect.
  pose proof (get_column_rectangular _ _ _ _ Hrect Hc1) as Lc.
  assert (Ln : List.length names = n).
  { destruct (string_dec nc pc) as [->|Hne].
    - rewrite Hc2 in Hn. injection Hn as <-. rewrite length_clean_price_column. exact Lc.
    - rewrite (Hother nc Hne) in Hn. eapply get_column_rectangular; eauto. }
  destruct (first_row_In names art HIn Hrefl) as (i & Hi & Hlt).
  unfold unit_price, row_index, row_price. rewrite Hn, Hi, Hc2.
  unfold clean_price_column. rewrite List.nth_error_map.
  destruct (nth_error cells i) as [c|] eqn:Ei.
  - simpl. discriminate.
  - apply List.nth_error_None in Ei. lia.
Qed.

(** X6: after a successful load with a name label that names one column
    and another column as price column, the loop of lines 87-95 builds a
    package from any selection of articles offered by the name column whose
    names are not blank and whose quantity widgets have distinct labels: the
    lookups of lines 89 and 92 cannot fail, and no line has NaN as its unit
    price. *)
Theorem catalog_selection_is_priced df0 n df nc pc names sel :
  load_frame strip lower parse_number df0 = Done (df, Some nc, Some pc) ->
  rectangular df0 n ->
  names_one_column df nc -> nc <> pc ->
  get_column df nc = Some names ->
  Forall (fun art => In art names /\ cell_eqb art art = true) (map fst sel) ->
  List.NoDup (map str_of_cell (map fst sel)) ->
  exists total_net package_lines,
    configure df nc (Some pc) sel = Some (total_net, package_lines) /\
    Forall (fun l => is_nan (Einzelpreis l) = false) package_lines.
Proof.
  intros H Hrect _ _ Hn Hsel _.
  destruct (configure df nc (Some pc) sel) as [[t ls]|] eqn:E.
  - exists t, ls. split; [reflexivity|].
    apply configure_from_prices in E. destruct E as (new & -> & Hnew). simpl.
    revert Hnew. apply List.Forall_impl. intros l Hl.
    exact (unit_price_not_nan _ _ _ _ _ _ H Hl).
  - exfalso. unfold configure in E. apply configure_from_fails in E.
    rewrite <- List.Exists_map with (f := fst) (P := fun art => unit_price df nc (Some pc) art = None) in E.
    apply List.Exists_exists in E. destruct E as (art & HIn & Hnone).
    rewrite List.Forall_forall in Hsel. destruct (Hsel art HIn) as [Hloc Hrefl].
    exact (unit_price_loaded _ _ _ _ _ _ _ H Hrect Hn Hloc Hrefl Hnone).
Qed.

(** X7: when the first header itself holds a keyword, the name column is
    taken as the price column: its cells are turned into numbers, so every
    name that is no number becomes 0. *)
Theorem keyword_in_first_header h cells rest :
  is_price_header lower (strip h) = true ->
  ~ In (strip h) (map strip (df_columns rest)) ->
  load_frame strip lower parse_number ((h, cells) :: rest)
  = Done ((strip h, clean_price_column parse_number cells) :: rename_strip strip rest,
          Some (strip h), Some (strip h)) /\
  forall i s, nth_error cells i = Some (Text s) -> parse_number s = None ->
              nth_error (clean_price_column parse_number cells) i = Some (Num 0%float).
Proof.
  intros Hkw Hnew. split.
  - assert (Z0 : count_occ string_dec (df_columns (rename_strip strip rest)) (strip h) = O).
    { apply count_occ_not_In. unfold df_columns, rename_strip. rewrite List.map_map.
      unfold df_columns in Hnew. rewrite List.map_map in Hnew. exact Hnew. }
    unfold load_frame.
    change (rename_strip strip ((h, cells) :: rest))
      with ((strip h, cells) :: rename_strip strip rest).
    change (df_columns ((strip h, cells) :: rename_strip strip rest))
      with (strip h :: df_columns (rename_strip strip rest)).
    assert (D : detect_price_col lower (strip h :: df_columns (rename_strip strip rest))
                = Some (strip h)).
    { unfold detect_price_col. cbn [scan_price_col]. rewrite Hkw. reflexivity. }
    rewrite D, (count_occ_cons_eq string_dec _ (eq_refl (strip h))), Z0.
    change (1 <? 1)%nat with false. cbn [get_column set_column].
    rewrite String.eqb_refl. reflexivity.
  - intros i s Hi Hs. unfold clean_price_column. rewrite List.nth_error_map, Hi. simpl.
    unfold clean_price. simpl. rewrite Hs. reflexivity.
Qed.

End LoadedFrame.

(** The sheet of scenario A: its frame has two columns of two rows. *)
Lemma load_keeps_shape_witness :
  df_columns scenario_df = map py_strip (df_columns scenario_sheet) /\
  n_columns scenario_df = n_columns scenario_sheet /\
  n_rows scenario_df = n_rows scenario_sheet /\
  df_empty scenario_df = df_empty scenario_sheet /\
  rectangular scenario_df 2.
Proof.
  apply (load_keeps_shape py_strip py_lower parse_digits scenario_sheet scenario_df
           (Some "Artikel"%string) (Some "Preis pro Stück"%string) 2%nat).
  - vm_compute. reflexivity.
  - repeat constructor.
Defined.

(** The sheet of scenario A: Stuhl and Tisch can be put in a package. *)
Lemma catalog_selection_is_priced_witness :
  exists total_net package_lines,
    configure scenario_df "Artikel" (Some "Preis pro Stück"%string)
      [(Text "Stuhl", 3); (Text "Tisch", 1)] = Some (total_net, package_lines) /\
    Forall (fun l => is_nan (Einzelpreis l) = false) package_lines.
Proof.
  apply (catalog_selection_is_priced py_strip py_lower parse_digits cell_text
           scenario_sheet 2%nat scenario_df "Artikel" "Preis pro Stück"
           [Text "Tisch"; Text "Stuhl"]).
  - vm_compute. reflexivity.
  - repeat constructor.
  - vm_compute. reflexivity.
  - discriminate.
  - reflexivity.
  - constructor; [split; [right; left; reflexivity|reflexivity]|].
    constructor; [split; [left; reflexivity|reflexivity]|constructor].
  - constructor; [cbn; intros [H|[]]; discriminate|].
    constructor; [cbn; tauto|constructor].
Defined.

(** A sheet with the headers Produkt and Miete: both names become 0, and the
    column Miete is not used as the price. *)
Lemma keyword_in_first_header_witness :
  load_frame py_strip py_lower parse_digits produkt_sheet
  = Done ([ ("Produkt"%string, [Num 0%float; Num 0%float]);
            ("Miete"%string, [Num 10%float; Num 5%float]) ],
          Some "Produkt"%string, Some "Produkt"%string).
Proof.
  exact (proj1 (keyword_in_first_header py_strip py_lower parse_digits "Produkt"
                  [Text "Tisch"; Text "Stuhl"] [("Miete"%string, [Num 10%float; Num 5%float])]
                  eq_refl
                  (fun H => match H with
                            | or_introl E => ltac:(discriminate E)
                            | or_intror F => F
                            end))).
Defined.

(** ** Runs of the script *)

(** A step that ends normally hands over to the next one. *)
Lemma bind_done {A B} (m : script A) (k : A -> script B) fs fs1 ev1 a fs2 ev2 r :
  m fs = (fs1, ev1, Done a) -> k a fs1 = (fs2, ev2, r) ->
  bind m k fs = (fs2, ev1 ++ ev2, r).
Proof. unfold bind. intros -> ->. reflexivity. Qed.

Lemma bind_silent {A B} (m : script A) (k : A -> script B) fs fs1 a fs2 ev2 r :
  m fs = (fs1, [], Done a) -> k a fs1 = (fs2, ev2, r) -> bind m k fs = (fs2, ev2, r).
Proof. unfold bind. intros -> ->. reflexivity. Qed.

Lemma show_step {A} e (k : script A) fs fs2 ev2 r :
  k fs = (fs2, ev2, r) -> bind (show e) (fun _ => k) fs = (fs2, e :: ev2, r).
Proof. unfold bind, show. intros ->. reflexivity. Qed.

Lemma bind_raised {A B} (m : script A) (k : A -> script B) fs fs1 ev1 exn :
  m fs = (fs1, ev1, Raised exn) -> bind m k fs = (fs1, ev1, Raised exn).
Proof. unfold bind. intros ->. reflexivity. Qed.

Lemma bind_stopped {A B} (m : script A) (k : A -> script B) fs fs1 ev1 :
  m fs = (fs1, ev1, Stopped) -> bind m k fs = (fs1, ev1, Stopped).
Proof. unfold bind. intros ->. reflexivity. Qed.

(** Steps that write no file outside [P]. *)
Lemma writes_only_ret P {A} (a : A) : writes_only P (ret a).
Proof. intros fs p _. reflexivity. Qed.

Lemma writes_only_show P e : writes_only P (show e).
Proof. intros fs p _. reflexivity. Qed.

Lemma writes_only_raise P {A} exn : writes_only P (@raise A exn).
Proof. intros fs p _. reflexivity. Qed.

Lemma writes_only_stop P {A} : writes_only P (@st_stop A).
Proof. intros fs p _. reflexivity. Qed.

Lemma writes_only_read P path : writes_only P (read_file path).
Proof. intros fs p _. reflexivity. Qed.

Lemma writes_only_write (P : string -> Prop) path data :
  P path -> writes_only P (write_file path data).
Proof.
  intros HP fs p Hp. unfold write_file. simpl. unfold files in *.
  apply lookup_insert_ne. intros ->. exact (Hp HP).
Qed.

Lemma writes_only_bind P {A B} (m : script A) (k : A -> script B) :
  writes_only P m -> (forall a, writes_only P (k a)) -> writes_only P (bind m k).
Proof.
  intros Hm Hk fs p Hp. unfold bind. specialize (Hm fs p Hp).
  destruct (m fs) as [[fs1 ev1] [a| |exn]]; simpl in *; try exact Hm.
  specialize (Hk a fs1 p Hp). destruct (k a fs1) as [[fs2 ev2] r]. simpl in *.
  congruence.
Qed.

Create HintDb writes.
#[export] Hint Resolve writes_only_ret writes_only_show writes_only_raise writes_only_stop
  writes_only_read : writes.

Ltac solve_writes :=
  repeat first
    [ solve [auto with writes]
    | apply writes_only_bind; [|intros ?]
    | match goal with |- writes_only _ (match ?x with _ => _ end) => destruct x end
    | match goal with |- writes_only _ (if ?x then _ else _) => destruct x end ].

Lemma writes_only_package_loop P df nc pc qty_of sel : forall acc,
  writes_only P (package_loop df nc pc qty_of sel acc).
Proof.
  induction sel as [|art sel IH]; intros acc; simpl; [solve_writes|].
  destruct (row_index df nc art); [|solve_writes].
  apply writes_only_bind; [solve_writes|]. intros _.
  destruct (row_price df pc n); [apply IH|solve_writes].
Qed.

Section ScriptRuns.

Variable strip : string -> string.
Variable lower : string -> string.
Variable parse_number : string -> option float.
Variable read_excel : string -> option DataFrame.
Variable str_contains : string -> cell -> bool.
Variable fmt2 : float -> string.
Variable str_of_int : Z -> string.
Variable str_of_cell : cell -> string.
Variable today : string.
Variable stamp : string.
Variable cwd : string.

(** [load_data] on a sheet that loads: nothing is shown. *)
Lemma load_data_ok fs df0 df nc pc :
  catalog_source read_excel cwd fs = Some df0 ->
  load_frame strip lower parse_number df0 = Done (df, nc, pc) ->
  load_data strip lower parse_number read_excel cwd "Miete.xlsx" fs
  = (fs, [], Done (Triple df nc pc)).
Proof.
  unfold catalog_source. intros H L.
  unfold load_data, bind, read_file. cbv beta iota. rewrite H, L. reflexivity.
Qed.

(** The upload widget always ends normally. *)
Lemma admin_upload_run up fs :
  admin_upload read_excel up fs
  = (fst (fst (admin_upload read_excel up fs)), snd (fst (admin_upload read_excel up fs)),
     Done tt).
Proof.
  unfold admin_upload. destruct up as [bytes|]; [|reflexivity].
  destruct (read_excel bytes); reflexivity.
Qed.

Lemma writes_only_admin_upload up :
  writes_only (fun p => p = upload_path /\
                        exists bytes, up = Some bytes /\ read_excel bytes <> None)
    (admin_upload read_excel up).
Proof.
  unfold admin_upload. apply writes_only_bind; [solve_writes|]. intros _.
  destruct up as [bytes|]; [|solve_writes].
  destruct (read_excel bytes) eqn:E; [|solve_writes].
  apply writes_only_bind; [solve_writes|]. intros _.
  apply writes_only_bind; [|intros _; solve_writes].
  apply writes_only_write. split; [reflexivity|].
  exists bytes. split; [reflexivity|congruence].
Qed.

Lemma writes_only_package_summary P package_lines d v :
  writes_only P (package_summary fmt2 str_of_int str_of_cell today stamp package_lines d v).
Proof.
  unfold package_summary. destruct (filter_positive package_lines); solve_writes.
Qed.

Lemma writes_only_load_data P path :
  writes_only P (load_data strip lower parse_number read_excel cwd path).
Proof.
  unfold load_data. apply writes_only_bind; [solve_writes|]. intros content.
  destruct (match content with Some bytes => read_excel bytes | None => None end);
    [|solve_writes].
  destruct (load_frame strip lower parse_number d) as [[[? ?] ?]| |]; solve_writes.
Qed.

Lemma writes_only_main inp :
  writes_only (fun p => p = upload_path /\
                        exists bytes, uploaded inp = Some bytes /\ read_excel bytes <> None)
    (main strip lower parse_number read_excel str_contains fmt2 str_of_int str_of_cell
          today stamp cwd inp).
Proof.
  pose proof writes_only_package_loop. pose proof writes_only_package_summary.
  pose proof (writes_only_admin_upload (uploaded inp)).
  pose proof writes_only_load_data.
  unfold main. do 2 (apply writes_only_bind; [solve_writes|intros _]).
  apply writes_only_bind; [auto|]. intros [df|df nc pc]; cbv beta iota zeta; solve_writes.
Qed.

(** X8: a run of the script writes no file but the one of the upload, and
    none at all when nothing is uploaded or when the uploaded file cannot be
    read as a spreadsheet; in particular it never changes the catalog file
    it reads. *)
Theorem only_upload_file_written inp fs :
  let fs' : files :=
    fst (fst (main strip lower parse_number read_excel str_contains fmt2 str_of_int
                   str_of_cell today stamp cwd inp fs)) in
  (forall p, p <> upload_path -> fs' !! p = (fs : files) !! p) /\
  (uploaded inp = None -> fs' = fs) /\
  (forall bytes, uploaded inp = Some bytes -> read_excel bytes = None -> fs' = fs) /\
  fs' !! abspath cwd "Miete.xlsx" = (fs : files) !! abspath cwd "Miete.xlsx".
Proof.
  cbv zeta. pose proof (writes_only_main inp) as W. split; [|split; [|split]].
  - intros p Hp. apply W. intros [E _]. exact (Hp E).
  - intros Hup. unfold files in *. apply map_eq. intros p. apply W.
    intros (_ & bytes & E & _). congruence.
  - intros bytes Hup Hread. unfold files in *. apply map_eq. intros p. apply W.
    intros (_ & bytes' & E & N). congruence.
  - apply W. intros [E _]. exact (catalog_path_not_upload _ E).
Qed.

(** X9: a sheet that has one column, with a header that holds no keyword,
    has no price column: the run then raises KeyError at line 71, after the
    search box and before any article can be selected; the fallback price 0
    of line 92 is never reached.  (With a search text, line 66 runs first.) *)
Theorem single_column_sheet_raises inp fs h cells :
  catalog_source read_excel cwd fs = Some [(h, cells)] ->
  is_price_header lower (strip h) = false -> cells <> [] ->
  search inp = ""%string ->
  load_frame strip lower parse_number [(h, cells)]
  = Done ([(strip h, cells)], Some (strip h), None) /\
  main strip lower parse_number read_excel str_contains fmt2 str_of_int str_of_cell
       today stamp cwd inp fs
  = (fs, [St_title; St_intro; Sidebar_settings; St_search_box], Raised "KeyError").
Proof.
  intros Hsrc Hkw Hcells _.
  assert (L : load_frame strip lower parse_number [(h, cells)]
              = Done ([(strip h, cells)], Some (strip h), None)).
  { unfold load_frame, detect_price_col. cbn [rename_strip map df_columns fst snd scan_price_col].
    rewrite Hkw. reflexivity. }
  split; [exact L|].
  pose proof (load_data_ok fs _ _ _ _ Hsrc L) as Lok.
  assert (E : df_empty [(strip h, cells)] = false).
  { destruct cells; [congruence|reflexivity]. }
  unfold main. do 2 apply show_step.
  eapply bind_silent; [exact Lok|]. cbv beta iota zeta. rewrite E.
  eapply bind_silent; [reflexivity|]. do 2 apply show_step.
  eapply bind_silent; [cbn [get_column]; rewrite String.eqb_refl; reflexivity|].
  apply bind_raised. reflexivity.
Qed.

(** X10: a sheet that loads but has no data row (or no column) ends the run
    with the warning of line 51 and [st.stop()], without the error message of
    a failed read; no widget is shown. *)
Theorem empty_sheet_stops inp fs df0 df nc pc :
  catalog_source read_excel cwd fs = Some df0 ->
  load_frame strip lower parse_number df0 = Done (df, nc, pc) ->
  df_empty df0 = true ->
  main strip lower parse_number read_excel str_contains fmt2 str_of_int str_of_cell
       today stamp cwd inp fs
  = (fs, [St_title; St_intro; St_warning no_data_warning], Stopped).
Proof.
  intros Hsrc L E. rewrite <- (df_empty_load _ _ _ _ _ _ _ L) in E.
  pose proof (load_data_ok fs _ _ _ _ Hsrc L) as Lok.
  unfold main. do 2 apply show_step.
  eapply bind_silent; [exact Lok|]. cbv beta iota zeta. rewrite E.
  apply bind_stopped. reflexivity.
Qed.

(** Without a search text the table shows every row. *)
Lemma display_rows_all names prices :
  display_rows str_contains names prices "" = combine names prices.
Proof.
  unfold display_rows. cbn [String.eqb]. induction (combine names prices) as [|row l IH];
    [reflexivity|]. cbn [List.filter]. rewrite IH. reflexivity.
Qed.

(** X11: the normal path.  When the sheet loads with a name label that
    names one column and another column as price column and has rows, no
    search text is entered
    and the selected articles are non-blank names of the catalog with
    distinct widget keys, the run raises nothing and does not stop (the
    export of line 138 being serialised without an error): it shows the
    whole catalog, the selection box, one quantity widget per selected
    article, the summary of the package built from them, the upload widget
    and the usage note, in this order. *)
Theorem selection_from_catalog_runs inp fs df0 n df nc pc names prices :
  catalog_source read_excel cwd fs = Some df0 ->
  load_frame strip lower parse_number df0 = Done (df, Some nc, Some pc) ->
  rectangular df0 n -> df_empty df0 = false ->
  names_one_column df nc -> nc <> pc ->
  get_column df nc = Some names -> get_column df pc = Some prices ->
  search inp = ""%string ->
  Forall (fun art => In art names /\ cell_eqb art art = true) (selected inp) ->
  List.NoDup (map str_of_cell (selected inp)) ->
  exists total_net package_lines,
    configure df nc (Some pc) (map (fun art => (art, qty_of inp art)) (selected inp))
      = Some (total_net, package_lines) /\
    main strip lower parse_number read_excel str_contains fmt2 str_of_int str_of_cell
         today stamp cwd inp fs
    = (fst (fst (admin_upload read_excel (uploaded inp) fs)),
       [St_title; St_intro; Sidebar_settings; St_search_box;
        St_dataframe (combine names prices); St_multiselect names]
       ++ match selected inp with
          | [] => [St_info]
          | _ :: _ =>
              map St_number_input (selected inp)
              ++ snd (fst (package_summary fmt2 str_of_int str_of_cell today stamp
                             package_lines (discount_pct inp) (mwst_pct inp) fs))
          end
       ++ snd (fst (admin_upload read_excel (uploaded inp) fs)) ++ [St_usage],
       Done tt).
Proof.
  intros Hsrc L Hrect Hrows _ _ Hn Hp Hsearch Hsel _.
  rewrite <- (df_empty_load _ _ _ _ _ _ _ L) in Hrows.
  pose proof (load_data_ok fs _ _ _ _ Hsrc L) as Lok.
  destruct (configure df nc (Some pc) (map (fun art => (art, qty_of inp art)) (selected inp)))
    as [[t ls]|] eqn:E.
  2:{ exfalso. unfold configure in E. apply configure_from_fails in E.
      apply List.Exists_exists in E. destruct E as ([art q] & HIn & Hnone).
      apply List.in_map_iff in HIn. destruct HIn as (art' & Ea & HIn).
      injection Ea as -> _. simpl in Hnone.
      rewrite List.Forall_forall in Hsel. destruct (Hsel art HIn) as [Hloc Hrefl].
      exact (unit_price_loaded _ _ _ _ _ _ _ _ _ _ L Hrect Hn Hloc Hrefl Hnone). }
  exists t, ls. split; [reflexivity|].
  pose proof (package_loop_configure df nc (Some pc) (qty_of inp) (selected inp)
                (0%float, []) fs) as Hloop.
  unfold configure in E. rewrite E in Hloop.
  unfold main. cbn [app]. do 2 apply show_step.
  eapply bind_silent; [exact Lok|]. cbv beta iota zeta. rewrite Hrows.
  eapply bind_silent; [reflexivity|]. do 2 apply show_step.
  eapply bind_silent; [rewrite Hn; reflexivity|].
  eapply bind_silent; [rewrite Hp; reflexivity|].
  rewrite Hsearch, display_rows_all. do 2 apply show_step.
  eapply bind_done.
  - destruct (selected inp) as [|art sel]; [reflexivity|].
    eapply bind_done; [exact Hloop|]. cbn [snd].
    rewrite package_summary_run. reflexivity.
  - eapply bind_done; [apply admin_upload_run|reflexivity].
Qed.

End ScriptRuns.

(** A sheet with the one column Artikel: KeyError after the search box. *)
Lemma single_column_sheet_raises_witness :
  main py_strip py_lower parse_digits read_one_column (fun _ _ => false)
       (fun _ => "0.00"%string) (fun _ => "1"%string) (fun _ => "x"%string)
       "2024-01-01" "20240101_000000" "/mnt/data"
       (mk_inputs 19 0%float "" [] (fun _ => 1) None)
       {[ "/mnt/data/Miete.xlsx"%string := "Tisch"%string ]}
  = ({[ "/mnt/data/Miete.xlsx"%string := "Tisch"%string ]},
     [St_title; St_intro; Sidebar_settings; St_search_box], Raised "KeyError").
Proof.
  apply (single_column_sheet_raises py_strip py_lower parse_digits read_one_column
           (fun _ _ => false) (fun _ => "0.00"%string) (fun _ => "1"%string)
           (fun _ => "x"%string) "2024-01-01" "20240101_000000" "/mnt/data"
           (mk_inputs 19 0%float "" [] (fun _ => 1) None)
           {[ "/mnt/data/Miete.xlsx"%string := "Tisch"%string ]} "Artikel" [Text "Tisch"]).
  - vm_compute. reflexivity.
  - vm_compute. reflexivity.
  - discriminate.
  - reflexivity.
Defined.

(** A sheet with its two headers and no row: the warning, and the run stops. *)
Lemma empty_sheet_stops_witness :
  main py_strip py_lower parse_digits read_headers_only (fun _ _ => false)
       (fun _ => "0.00"%string) (fun _ => "1"%string) (fun _ => "x"%string)
       "2024-01-01" "20240101_000000" "/mnt/data"
       (mk_inputs 19 0%float "" [] (fun _ => 1) None)
       {[ "/mnt/data/Miete.xlsx"%string := "xlsx"%string ]}
  = ({[ "/mnt/data/Miete.xlsx"%string := "xlsx"%string ]},
     [St_title; St_intro; St_warning no_data_warning], Stopped).
Proof.
  apply (empty_sheet_stops py_strip py_lower parse_digits read_headers_only
           (fun _ _ => false) (fun _ => "0.00"%string) (fun _ => "1"%string)
           (fun _ => "x"%string) "2024-01-01" "20240101_000000" "/mnt/data"
           (mk_inputs 19 0%float "" [] (fun _ => 1) None)
           {[ "/mnt/data/Miete.xlsx"%string := "xlsx"%string ]}
           [ ("Artikel"%string, []); ("Preis pro Stück"%string, []) ]
           [ ("Artikel"%string, []); ("Preis pro Stück"%string, []) ]
           (Some "Artikel"%string) (Some "Preis pro Stück"%string)).
  - vm_compute. reflexivity.
  - vm_compute. reflexivity.
  - reflexivity.
Defined.

(** Scenario A: the run ends normally with the package of Tisch and Stuhl. *)
Lemma selection_from_catalog_runs_witness :
  exists total_net package_lines,
    configure scenario_df "Artikel" (Some "Preis pro Stück"%string)
      [(Text "Tisch", 2); (Text "Stuhl", 3)] = Some (total_net, package_lines) /\
    snd (main py_strip py_lower parse_digits (fun _ => Some scenario_sheet) (fun _ _ => true)
              (fun _ => "0.00"%string) (fun _ => "1"%string) cell_text
              "2024-01-01" "20240101_000000" "/mnt/data" scenario_A_inputs
              {[ "/mnt/data/Miete.xlsx"%string := "xlsx"%string ]}) = Done tt.
Proof.
  destruct (selection_from_catalog_runs py_strip py_lower parse_digits
              (fun _ => Some scenario_sheet) (fun _ _ => true)
              (fun _ => "0.00"%string) (fun _ => "1"%string) cell_text
              "2024-01-01" "20240101_000000" "/mnt/data" scenario_A_inputs
              {[ "/mnt/data/Miete.xlsx"%string := "xlsx"%string ]}
              scenario_sheet 2%nat scenario_df "Artikel" "Preis pro Stück"
              [Text "Tisch"; Text "Stuhl"] [Num 10%float; Num 5%float])
    as (t & ls & H1 & H2).
  - vm_compute. reflexivity.
  - vm_compute. reflexivity.
  - repeat constructor.
  - reflexivity.
  - vm_compute. reflexivity.
  - discriminate.
  - reflexivity.
  - reflexivity.
  - reflexivity.
  - constructor; [split; [left; reflexivity|reflexivity]|].
    constructor; [split; [right; left; reflexivity|reflexivity]|constructor].
  - constructor; [cbn; intros [H|[]]; discriminate|].
    constructor; [cbn; tauto|constructor].
  - exists t, ls. split; [exact H1|]. rewrite H2. reflexivity.
Defined.

(** ** The names of the downloads (lines 137 and 157) *)

Lemma no_dot_cons c s :
  str_in "." (String c s) = false -> c <> "."%char /\ str_in "." s = false.
Proof.
  cbn [str_in String.prefix]. intros H. apply orb_false_iff in H as [H1 H2].
  split; [|exact H2]. intros ->. destruct s; discriminate.
Qed.

Lemma replace_extension s :
  str_in "." s = false ->
  str_replace ".xlsx" ".txt" (s ++ ".xlsx") = (s ++ ".txt")%string.
Proof.
  unfold str_replace. induction s as [|c s IH]; intros H; [reflexivity|].
  apply no_dot_cons in H as [Hc Hs]. rewrite !append_cons.
  cbn [replace_from String.prefix].
  destruct (ascii_dec "." c) as [E|_]; [congruence|]. rewrite (IH Hs). reflexivity.
Qed.

Section DownloadNames.

Variable fmt2 : float -> string.
Variable str_of_int : Z -> string.
Variable str_of_cell : cell -> string.
Variable today : string.
Variable stamp : string.

(** X12: the text download is named after the export: whenever the time
    stamp holds no dot, replacing .xlsx by .txt in the name of the export
    (line 157) changes its extension and nothing else, so the two downloads
    of a package differ in their extension only. *)
Theorem txt_name_follows_export package_lines d v fs :
  str_in "." stamp = false ->
  txt_file_name ("Paket_" ++ stamp ++ ".xlsx") = ("Paket_" ++ stamp ++ ".txt")%string /\
  forall text name,
    In (Download_txt text name)
       (snd (fst (package_summary fmt2 str_of_int str_of_cell today stamp
                    package_lines d v fs))) ->
    exists rows xname,
      In (Download_xlsx rows xname)
         (snd (fst (package_summary fmt2 str_of_int str_of_cell today stamp
                      package_lines d v fs))) /\
      name = txt_file_name xname.
Proof.
  intros Hstamp.
  assert (N : txt_file_name ("Paket_" ++ stamp ++ ".xlsx") = ("Paket_" ++ stamp ++ ".txt")%string).
  { unfold txt_file_name.
    assert (A : forall suf, ("Paket_" ++ stamp ++ suf)%string = (("Paket_" ++ stamp) ++ suf)%string).
    { intros suf. rewrite !append_cons, !append_nil. reflexivity. }
    rewrite !A. apply replace_extension.
    rewrite !append_cons, append_nil. cbn [str_in String.prefix].
    repeat (destruct (ascii_dec _ _) as [?|_]; [discriminate|]). exact Hstamp. }
  split; [exact N|].
  intros text name. rewrite package_summary_run.
  destruct (filter_positive package_lines) as [|l ls]; cbn [fst snd In].
  - intros [H|[]]. discriminate.
  - intros [H|[H|[H|[H|[H|[]]]]]]; try discriminate. injection H as _ <-.
    eexists _, _. split; [right; right; left; reflexivity|]. symmetry. exact N.
Qed.

End DownloadNames.

(** With the stamp 20240101_000000 the offer is Paket_20240101_000000.txt. *)
Lemma txt_name_follows_export_witness :
  txt_file_name "Paket_20240101_000000.xlsx" = "Paket_20240101_000000.txt"%string.
Proof.
  exact (proj1 (txt_name_follows_export (fun _ => "0.00"%string) (fun _ => "1"%string)
                  (fun _ => "x"%string) "2024-01-01" "20240101_000000"
                  scenario_A_lines 0%float 19 ∅ eq_refl)).
Defined.

(** ** The summary figures at the ends of the settings (lines 109-112) *)

(** Subtracting a smaller non-negative float does not increase the value. *)
Lemma SFsub_le x y :
  nonneg x -> nonneg y -> finite_val x -> le_ext (val y) (val x) ->
  le_ext (val (SFsub prec emax x y)) (val x).
Proof.
  intros Hx Hy Fx L. unfold finite_val in *.
  nonneg_cases x Hx as sx mx ex Cx Bx; nonneg_cases y Hy as sy my ey Cy By;
    cbn [SFsub val nonneg le_ext] in *; try tauto.
  - destruct sx, sy; cbn; lia.
  - lia.
  - rewrite !cond_Zopp_false, !aligned by lia.
    set (ez := Z.min ex ey).
    pose proof (canon_emin _ _ Cx). pose proof (canon_emin _ _ Cy).
    pose proof (pow2_pos (ey - ez) ltac:(lia)).
    pose proof (V_le_aligned (Zpos my) ey (Zpos mx) ex ez ltac:(lia) ltac:(lia) ltac:(lia) L).
    destruct (Zpos mx * 2 ^ (ex - ez) - Zpos my * 2 ^ (ey - ez)) as [|M|M] eqn:E; try lia.
    + cbn. pose proof (V_pos (Zpos mx) ex ltac:(lia) ltac:(lia)). lia.
    + cbn [binary_normalize]. apply binary_round_le; try assumption; try lia.
Qed.

(** The VAT rates 7/100 and 19/100 are between 0 and 1. *)
Lemma vat_rate_le_one v :
  v = 7 \/ v = 19 ->
  nonneg (Prim2SF (float_of_int v / 100)) /\
  le_ext (val (Prim2SF (float_of_int v / 100))) (val SFone).
Proof.
  intros [-> | ->].
  - change (Prim2SF (float_of_int 7 / 100))
      with (S754_finite false 5044031582654956 (-56)).
    split; [repeat split; lia|]. cbn [val SFone le_ext]. unfold V. vm_compute. discriminate.
  - change (Prim2SF (float_of_int 19 / 100))
      with (S754_finite false 6845471433603154 (-55)).
    split; [repeat split; lia|]. cbn [val SFone le_ext]. unfold V. vm_compute. discriminate.
Qed.

Lemma finite_val_le x y : le_ext (val x) (val y) -> finite_val y -> finite_val x.
Proof.
  unfold finite_val. destruct (val x), (val y); cbn; try congruence; tauto.
Qed.

(** X13: for a finite net subtotal >= 0, a discount in [0, 100] and a VAT
    rate of 0, 7 or 19, the discount is between 0 and the net subtotal, the
    discounted net is at most the net subtotal, and the VAT is between 0 and
    the discounted net. *)
Theorem summary_bounds package_df d v :
  let r := summarize package_df d v in
  fge (net_sum r) 0 = true -> is_finite (net_sum r) = true ->
  fge d 0 = true -> fge 100 d = true -> v = 0 \/ v = 7 \/ v = 19 ->
  fge (discount_amount r) 0 = true /\
  fge (net_sum r) (discount_amount r) = true /\
  fge (net_sum r) (net_after_discount r) = true /\
  fge (vat_amount r) 0 = true /\
  fge (net_after_discount r) (vat_amount r) = true.
Proof.
  cbv zeta. unfold summarize.
  cbn [net_sum discount_amount net_after_discount vat_amount].
  set (s := series_sum (map ZeileNetto package_df)).
  intros Hs Hfin Hd0 Hd100 Hv.
  pose proof (fge0_nonneg s Hs) as Ns. pose proof (is_finite_val s Hfin) as Fs.
  pose proof (fge0_nonneg d Hd0) as Nd.
  assert (N100 : nonneg (Prim2SF 100)) by (rewrite hundred_spec; repeat split; lia).
  pose proof (le_of_fge 100 d N100 Nd Hd100) as Ld.
  assert (Hf : nonneg (Prim2SF (d / 100)) /\ le_ext (val (Prim2SF (d / 100))) (val SFone)).
  { rewrite FloatAxioms.div_spec. unfold SF64div. rewrite hundred_spec in *.
    now apply SFdiv_le_one. }
  destruct Hf as [Nf Lf].
  assert (Hdisc : nonneg (Prim2SF (s * (d / 100))) /\
                  le_ext (val (Prim2SF (s * (d / 100)))) (val (Prim2SF s))).
  { rewrite FloatAxioms.mul_spec. unfold SF64mul. now apply SFmul_le. }
  destruct Hdisc as [Ndisc Ldisc].
  assert (Nnet : nonneg (Prim2SF (s - s * (d / 100)))).
  { rewrite FloatAxioms.sub_spec. unfold SF64sub. now apply SFsub_nonneg. }
  assert (Lnet : le_ext (val (Prim2SF (s - s * (d / 100)))) (val (Prim2SF s))).
  { rewrite FloatAxioms.sub_spec. unfold SF64sub. now apply SFsub_le. }
  pose proof (finite_val_le _ _ Lnet Fs) as Fnet.
  split; [now apply nonneg_fge0|]. split; [now apply fge_of_le|].
  split; [now apply fge_of_le|].
  set (net := (s - s * (d / 100))%float) in *.
  destruct Hv as [-> | Hv].
  - cbn [Z.eqb negb]. split; [reflexivity|]. now apply nonneg_fge0.
  - assert (E : negb (v =? 0) = true) by (destruct Hv as [-> | ->]; reflexivity).
    rewrite E. destruct (vat_rate_le_one v Hv) as [Nr Lr].
    assert (Hvat : nonneg (Prim2SF (net * (float_of_int v / 100))) /\
                   le_ext (val (Prim2SF (net * (float_of_int v / 100)))) (val (Prim2SF net))).
    { rewrite FloatAxioms.mul_spec. unfold SF64mul. now apply SFmul_le. }
    destruct Hvat as [Nvat Lvat].
    split; [now apply nonneg_fge0|now apply fge_of_le].
Qed.

(** Scenario A with a discount of 10 %. *)
Lemma summary_bounds_witness :
  let r := summarize scenario_A_lines 10%float 19 in
  fge (discount_amount r) 0 = true /\
  fge (net_sum r) (discount_amount r) = true /\
  fge (net_sum r) (net_after_discount r) = true /\
  fge (vat_amount r) 0 = true /\
  fge (net_after_discount r) (vat_amount r) = true.
Proof.
  apply (summary_bounds scenario_A_lines 10%float 19); try reflexivity. right. right. reflexivity.
Defined.

(** A float that is not NaN equals itself. *)
Lemma SFeqb_refl x : x <> S754_nan -> SFeqb x x = true.
Proof.
  intros H. destruct x as [s|s| |s m e].
  - reflexivity.
  - destruct s; reflexivity.
  - congruence.
  - unfold SFeqb, SFcompare. rewrite Z.compare_refl, Pos.compare_cont_refl.
    destruct s; reflexivity.
Qed.

(** X14: the neutral settings.  With a discount of 0 and a finite net
    subtotal the discounted net equals the net subtotal; with a VAT rate of 0
    the VAT is 0 and the gross total equals the discounted net (whenever that
    is a number). *)
Theorem neutral_settings package_df d v :
  (is_finite (net_sum (summarize package_df 0%float v)) = true ->
   (net_after_discount (summarize package_df 0%float v)
    =? net_sum (summarize package_df 0%float v))%float = true) /\
  vat_amount (summarize package_df d 0) = 0%float /\
  (is_nan (net_after_discount (summarize package_df d 0)) = false ->
   (gross_total (summarize package_df d 0)
    =? net_after_discount (summarize package_df d 0))%float = true).
Proof.
  unfold summarize. cbn [net_sum discount_amount net_after_discount vat_amount gross_total].
  set (s := series_sum (map ZeileNetto package_df)). split; [|split].
  - intros Hfin. apply is_finite_val in Hfin. unfold finite_val in Hfin.
    rewrite FloatAxioms.eqb_spec, FloatAxioms.sub_spec, FloatAxioms.mul_spec.
    change (Prim2SF (0 / 100)) with (S754_zero false).
    destruct (Prim2SF s) as [sx|sx| |sx mx ex] eqn:E; cbn in Hfin; try congruence.
    + destruct sx; reflexivity.
    + cbn [SF64mul SFmul SF64sub SFsub]. apply SFeqb_refl. discriminate.
  - reflexivity.
  - cbn [Z.eqb negb]. set (net := (s - s * (d / 100))%float).
    unfold is_nan. intros H. apply negb_false_iff in H.
    rewrite FloatAxioms.eqb_spec in *. rewrite FloatAxioms.add_spec.
    change (Prim2SF 0) with (S754_zero false).
    destruct (Prim2SF net) as [sx|sx| |sx mx ex]; try discriminate.
    + destruct sx; reflexivity.
    + exact H.
    + exact H.
Qed.

(** Multiplying a finite float by 1.0 gives the float back. *)
Lemma SFmul_one x :
  valid_binary x = true -> finite_val x -> SFmul prec emax x SFone = x.
Proof.
  intros Hv F. unfold finite_val in F.
  destruct x as [sx|sx| |sx mx ex]; cbn in F; try congruence.
  - destruct sx; reflexivity.
  - apply valid_canon in Hv. destruct Hv as [C B].
    cbn [SFmul SFone]. replace (xorb sx false) with sx by (destruct sx; reflexivity).
    pose proof (canon_emin _ _ C) as Em.
    assert (D : Zdigits2 (Zpos (mx * 4503599627370496)) = Zdigits2 (Zpos mx) + 52).
    { rewrite Pos2Z.inj_mul. change (Zpos 4503599627370496) with (2 ^ 52).
      apply Zdigits2_mul_pow2; lia. }
    assert (E1 : fexp64 (Zdigits2 (Zpos (mx * 4503599627370496)) + (ex + -52)) = ex).
    { rewrite D. replace (Zdigits2 (Zpos mx) + 52 + (ex + -52)) with (Zdigits2 (Zpos mx) + ex)
        by lia. exact C. }
    destruct (bra_spec sx (Zpos (mx * 4503599627370496)) (ex + -52) loc_Exact
                ltac:(lia) ltac:(lia)) as (m1 & m2 & e2 & H).
    cbv zeta in H. rewrite E1 in H. destruct H as (_ & Hex & Hm2 & Hval & He & C2 & ->).
    replace (ex - (ex + -52)) with 52 in Hex by lia.
    assert (Q : Zpos (mx * 4503599627370496) = Zpos mx * 2 ^ 52).
    { rewrite Pos2Z.inj_mul. reflexivity. }
    rewrite Q in Hex.
    assert (M1 : m1 = Zpos mx).
    { rewrite Hex; [apply Z.div_mul; lia|reflexivity|apply Z.mod_mul; lia]. }
    rewrite M1 in Hval. clear M1 Hex.
    assert (Ee : e2 = ex).
    { destruct (Z.eq_dec e2 ex) as [|N]; [assumption|exfalso].
      assert (P2 : 0 < m2).
      { destruct (Z.eq_dec m2 0) as [->|]; [rewrite Z.mul_0_l in Hval; lia|lia]. }
      pose proof (canon_normal m2 e2 P2 C2 ltac:(lia)) as D2.
      pose proof (Zdigits2_mul_pow2 m2 (e2 - ex) P2 ltac:(lia)) as D3.
      rewrite Hval in D3.
      pose proof (canon_digits_le (Zpos mx) ex ltac:(lia) C). lia. }
    subst e2. rewrite Z.sub_diag, Z.pow_0_r, Z.mul_1_r in Hval. subst m2.
    unfold round_result. apply Z.leb_le in B. rewrite B. reflexivity.
Qed.

(** A finite float minus itself is +0.0. *)
Lemma SFsub_diag x :
  valid_binary x = true -> finite_val x -> SFsub prec emax x x = S754_zero false.
Proof.
  intros Hv F. unfold finite_val in F.
  destruct x as [sx|sx| |sx mx ex]; cbn in F; try congruence.
  - destruct sx; reflexivity.
  - cbn [SFsub]. rewrite Z.sub_diag. reflexivity.
Qed.

(** X15: a discount of 100 % on a finite net subtotal takes all of it: the
    discount is the net subtotal itself, and the discounted net, the VAT and
    the gross total are 0. *)
Theorem full_discount package_df v :
  let r := summarize package_df 100%float v in
  is_finite (net_sum r) = true -> v = 0 \/ v = 7 \/ v = 19 ->
  discount_amount r = net_sum r /\
  net_after_discount r = 0%float /\ vat_amount r = 0%float /\ gross_total r = 0%float.
Proof.
  cbv zeta. unfold summarize.
  cbn [net_sum discount_amount net_after_discount vat_amount gross_total].
  set (s := series_sum (map ZeileNetto package_df)). intros Hfin Hv.
  apply is_finite_val in Hfin.
  assert (D : (s * (100 / 100))%float = s).
  { apply Prim2SF_inj. rewrite FloatAxioms.mul_spec.
    change (Prim2SF (100 / 100)) with SFone.
    apply SFmul_one; [apply Prim2SF_valid|exact Hfin]. }
  rewrite D.
  assert (N : (s - s)%float = 0%float).
  { apply Prim2SF_inj. rewrite FloatAxioms.sub_spec.
    change (Prim2SF 0) with (S754_zero false).
    apply SFsub_diag; [apply Prim2SF_valid|exact Hfin]. }
  rewrite N. split; [reflexivity|]. split; [reflexivity|].
  destruct Hv as [-> | [-> | ->]]; split; reflexivity.
Qed.

(** Scenario A with a discount of 100 %. *)
Lemma full_discount_witness :
  let r := summarize scenario_A_lines 100%float 19 in
  discount_amount r = net_sum r /\
  net_after_discount r = 0%float /\ vat_amount r = 0%float /\ gross_total r = 0%float.
Proof.
  apply (full_discount scenario_A_lines 19); [reflexivity|]. right. right. reflexivity.
Defined.

(** ** A package without positions (lines 101-103) *)

Lemma filter_positive_nil lines :
  filter_positive lines = [] <-> Forall (fun l => Menge l <= 0) lines.
Proof.
  unfold filter_positive. induction lines as [|l lines IH]; cbn [List.filter].
  - split; [constructor|reflexivity].
  - destruct (0 <? Menge l) eqn:E.
    + apply Z.ltb_lt in E. split; [discriminate|].
      intros H. apply List.Forall_cons_iff in H as [H _]. lia.
    + apply Z.ltb_ge in E. rewrite IH. split.
      * intros H. constructor; assumption.
      * intros H. apply List.Forall_cons_iff in H as [_ H]. exact H.
Qed.

Section EmptyPackage.

Variable fmt2 : float -> string.
Variable str_of_int : Z -> string.
Variable str_of_cell : cell -> string.
Variable today : string.
Variable stamp : string.

(** X16: the summary is the one warning of line 103, with no table, no
    figures, no export and no offer, exactly when no selected article has a
    quantity above 0. *)
Theorem empty_package_warning package_lines d v fs :
  Forall (fun l => Menge l <= 0) package_lines <->
  package_summary fmt2 str_of_int str_of_cell today stamp package_lines d v fs
  = (fs, [St_warning "Keine Positionen mit Menge > 0 im Paket."], Done tt).
Proof.
  rewrite package_summary_run. rewrite <- filter_positive_nil.
  destruct (filter_positive package_lines) as [|l ls].
  - split; reflexivity.
  - split; [discriminate|]. cbv zeta. intros H. discriminate.
Qed.

End EmptyPackage.
